(** * PEP 425 compatibility tags: [pip/_internal/pep425tags.py]

    A shallow embedding of the tag-generation module of pip and the
    properties of its platform detection, platform expansion, ABI
    resolution and tag assembly.

    Python strings are [string] (sequences of one-byte characters), Python
    integers are [Z] (components of [sys.version_info] are [nat]), the
    header of the running executable is a [list Byte.byte].  Everything the
    module asks of the interpreter, the operating system and the vendored
    [packaging.tags] library is gathered in the records [Env] and [TagLib];
    code that queries them lives in the monad [M], which reads the
    environment, may raise a Python exception and records the queries it
    makes. *)

From Stdlib Require Import ZArith String Ascii List Lia DecimalString DecimalNat.
From Stdlib.Strings Require Import Byte.
From stdpp Require Import base decidable option list gmap strings.

Local Open Scope Z_scope.
#[local] Set Warnings "-clear-no-such-hyp".

(** ** Python built-ins used by the module *)

Module Py.

(** [s.replace(old, new)] for one-character [old] and [new]. *)
Fixpoint replace (old new : ascii) (s : string) : string :=
  match s with
  | EmptyString => EmptyString
  | String c s' =>
      String (if Ascii.eqb c old then new else c) (replace old new s')
  end.

(** [s.split(sep)] for a one-character separator. *)
Fixpoint split (sep : ascii) (s : string) : list string :=
  match s with
  | EmptyString => [EmptyString]
  | String c s' =>
      if Ascii.eqb c sep then EmptyString :: split sep s'
      else match split sep s' with
           | [] => [String c EmptyString]
           | w :: ws => String c w :: ws
           end
  end.

(** [s.partition(sep)] for a one-character separator: the text before the
    first separator, the separator (empty when there is none), the rest. *)
Fixpoint partition (sep : ascii) (s : string) : string * string * string :=
  match s with
  | EmptyString => (EmptyString, EmptyString, EmptyString)
  | String c s' =>
      if Ascii.eqb c sep then (EmptyString, String sep EmptyString, s')
      else let '(a, b, d) := partition sep s' in (String c a, b, d)
  end.

(** [s.startswith(p)]. *)
Definition startswith (s p : string) : bool := String.prefix p s.

(** [s[n:]]. *)
Fixpoint drop (n : nat) (s : string) : string :=
  match n, s with
  | O, _ => s
  | S n', String _ s' => drop n' s'
  | S _, EmptyString => EmptyString
  end.

(** [l[i:j]] on lists, for [0 <= i <= j]. *)
Definition slice {A} (i j : nat) (l : list A) : list A :=
  List.firstn (j - i) (List.skipn i l).

(** [str(n)] for a non-negative integer. *)
Definition str (n : nat) : string :=
  NilEmpty.string_of_uint (Nat.to_uint n).

(** [''.join(l)]. *)
Definition join (l : list string) : string :=
  List.fold_right String.append EmptyString l.

(** [range(n, -1, -1)]: [n, n-1, ..., 0]. *)
Fixpoint countdown (n : nat) : list nat :=
  match n with
  | O => [O]
  | S n' => n :: countdown n'
  end.

(** Truth value of an optional string: [None] and [''] are false. *)
Definition truthy (o : option string) : bool :=
  match o with
  | Some (String _ _) => true
  | _ => false
  end.

Definition is_digit (c : ascii) : bool :=
  (Nat.leb 48 (nat_of_ascii c) && Nat.leb (nat_of_ascii c) 57)%bool.

Definition digit_val (c : ascii) : Z := Z.of_nat (nat_of_ascii c) - 48.

(** Characters that [int] strips from a string: TAB..CR and the space,
    and of the characters above 127 the white space NEL (133) and NBSP
    (160), which [int] reads as spaces.  FS..US are white space for
    [str.isspace] but not for [int]. *)
Definition is_space (c : ascii) : bool :=
  let n := nat_of_ascii c in
  ((Nat.leb 9 n && Nat.leb n 13) || Nat.eqb n 32
   || Nat.eqb n 133 || Nat.eqb n 160)%bool.

Fixpoint lstrip (s : string) : string :=
  match s with
  | String c s' => if is_space c then lstrip s' else s
  | EmptyString => EmptyString
  end.

Fixpoint rstrip (s : string) : string :=
  match s with
  | EmptyString => EmptyString
  | String c s' =>
      match rstrip s' with
      | EmptyString => if is_space c then EmptyString
                       else String c EmptyString
      | r => String c r
      end
  end.

(** The digits of an integer literal after a first digit has been read;
    a single underscore may separate two digits. *)
Fixpoint int_digits (acc : Z) (s : string) : option Z :=
  match s with
  | EmptyString => Some acc
  | String c s' =>
      if is_digit c then int_digits (10 * acc + digit_val c) s'
      else if Ascii.eqb c "_" then
        match s' with
        | String d s'' =>
            if is_digit d then int_digits (10 * acc + digit_val d) s''
            else None
        | EmptyString => None
        end
      else None
  end.

Definition int_body (s : string) : option Z :=
  match s with
  | String c s' => if is_digit c then int_digits (digit_val c) s' else None
  | EmptyString => None
  end.

(** [int(s)] in base ten, as Python 3 reads it: surrounding white space, an
    optional sign, digits with single underscores between them; [None]
    stands for [ValueError]. *)
Definition int (s : string) : option Z :=
  match rstrip (lstrip s) with
  | String "+" r => int_body r
  | String "-" r => Z.opp <$> int_body r
  | t => int_body t
  end.

End Py.

(** ** Outcomes, the environment and the monad *)

Inductive exn : Type := IndexError | ValueError | AttributeError.

Inductive outcome (A : Type) : Type :=
| Returns (a : A)
| Raises (e : exn).
Arguments Returns {A} a.
Arguments Raises {A} e.

(** A value of a build-configuration variable: [sysconfig] yields integers
    for numeric entries and strings otherwise. *)
Inductive pyval : Type :=
| PInt (z : Z)
| PStr (s : string).

(** The optional [_manylinux] marker module; each attribute may be missing,
    a present one is recorded by its truth value. *)
Record manylinux_module : Type := {
  manylinux1_compatible : option bool;
  manylinux2010_compatible : option bool;
  manylinux2014_compatible : option bool
}.

Record Env : Type := {
  sys_platform : string;
  sys_maxsize : Z;
  sys_version_info : nat * nat;
  sys_pypy_version_info : nat * nat;
  sys_maxunicode : option Z;
  sys_has_gettotalrefcount : bool;
  (** [platform.mac_ver()]: the release and the machine *)
  mac_ver : string * string;
  (** [distutils.util.get_platform()] *)
  distutils_platform : string;
  (** [sysconfig.get_config_var] *)
  config_var : string -> option pyval;
  (** the first bytes of [sys.executable]; [None] when opening or reading
      it raises [IOError], [OSError] or [TypeError] *)
  executable_image : option (list Byte.byte);
  (** [import _manylinux]; [None] when it raises [ImportError] *)
  manylinux : option manylinux_module;
  (** [pip._internal.utils.glibc.have_compatible_glibc] *)
  have_compatible_glibc : nat -> nat -> bool;
  (** [packaging.tags]: interpreter identity and the macOS generator *)
  interpreter_name : string;
  interpreter_version : string;
  mac_platforms : Z * Z -> string -> list string
}.

(** The queries a computation makes, in the order it makes them. *)
Inductive Event : Type :=
| EvPlatform
| EvConfigVar (var : string)
| EvLogDebug (var : string)
| EvOpenExecutable
| EvImportManylinux
| EvGlibc (major minor : nat).

Definition is_glibc_check (ev : Event) : bool :=
  match ev with
  | EvGlibc _ _ => true
  | _ => false
  end.

Definition M (A : Type) : Type := Env -> outcome A * list Event.

Definition ret {A} (a : A) : M A := fun _ => (Returns a, []).

Definition raise {A} (e : exn) : M A := fun _ => (Raises e, []).

Definition bind {A B} (m : M A) (k : A -> M B) : M B :=
  fun env =>
    match m env with
    | (Returns a, t) => let '(r, t') := k a env in (r, t ++ t')
    | (Raises e, t) => (Raises e, t)
    end.

Definition ask {A} (f : Env -> A) : M A := fun env => (Returns (f env), []).

Definition emit (ev : Event) : M unit := fun _ => (Returns tt, [ev]).

Definition lift {A} (o : outcome A) : M A := fun _ => (o, []).

Notation "'let!' x ':=' m 'in' k" := (bind m (fun x => k))
  (at level 10, x name, m at level 100, k at level 200).

(** The result and the queries of a computation in an environment. *)
Definition value {A} (m : M A) (env : Env) : outcome A := fst (m env).
Definition trace {A} (m : M A) (env : Env) : list Event := snd (m env).

(** ** Platform identity *)

Definition _is_running_32bit : M bool :=
  let! maxsize := ask sys_maxsize in
  ret (bool_decide (maxsize = 2147483647)).

Definition get_platform : M string :=
  let! plat := ask sys_platform in
  if bool_decide (plat = "darwin"%string) then
    let! _ := emit EvPlatform in
    let! ver := ask mac_ver in
    let '(release, machine) := ver in
    let split_ver := Py.split "." release in
    let! is32 := _is_running_32bit in
    let machine :=
      if (bool_decide (machine = "x86_64"%string) && is32)%bool
      then "i386"%string
      else if (bool_decide (machine = "ppc64"%string) && is32)%bool
      then "ppc"%string
      else machine in
    match split_ver with
    | v0 :: v1 :: _ =>
        ret ("macosx_" +:+ v0 +:+ "_" +:+ v1 +:+ "_" +:+ machine)
    | _ => raise IndexError
    end
  else
    let! _ := emit EvPlatform in
    let! raw := ask distutils_platform in
    let result := Py.replace "-" "_" (Py.replace "." "_" raw) in
    if bool_decide (result = "linux_x86_64"%string) then
      let! is32 := _is_running_32bit in
      if is32 then ret "linux_i686"%string else ret result
    else ret result.

(** ** Kernel ABI probe *)

Definition is_linux_armhf : M bool :=
  let! plat := get_platform in
  if negb (bool_decide (plat = "linux_armv7l"%string)) then ret false
  else
    let! _ := emit EvOpenExecutable in
    let! image := ask executable_image in
    match image with
    | None => ret false
    | Some bytes =>
        (* f.read(40) *)
        let elf_header_raw := List.firstn 40 bytes in
        if (length elf_header_raw <? 40)%nat then ret false
        else
          let elf_header :=
            List.map (fun b => Z.of_N (Byte.to_N b)) elf_header_raw in
          let result :=
            bool_decide (Py.slice 0 4 elf_header = [0x7f; 0x45; 0x4c; 0x46]) in
          let result := result && bool_decide (Py.slice 4 5 elf_header = [1]) in
          let result := result && bool_decide (Py.slice 5 6 elf_header = [1]) in
          let result :=
            result && bool_decide (Py.slice 18 20 elf_header = [0x28; 0]) in
          let result :=
            result && bool_decide (Py.slice 39 40 elf_header = [5]) in
          match Py.slice 37 38 elf_header with
          | flags :: _ => ret (result && bool_decide (Z.land flags 4 = 4))
          | [] => raise IndexError
          end
    end.

(** ** Environment compatibility predicates *)

(** [import _manylinux] followed by the lookup of one attribute; [None]
    when either raises ([ImportError], [AttributeError]). *)
Definition manylinux_marker (attr : manylinux_module -> option bool)
  : M (option bool) :=
  let! _ := emit EvImportManylinux in
  let! module := ask manylinux in
  ret (module ≫= attr).

Definition glibc_check (major minor : nat) : M bool :=
  let! _ := emit (EvGlibc major minor) in
  ask (fun env => have_compatible_glibc env major minor).

Definition is_manylinux1_compatible : M bool :=
  let! plat := get_platform in
  if negb (bool_decide
             (plat ∈ ["linux_x86_64"; "linux_i686"]%string)) then ret false
  else
    let! marker := manylinux_marker manylinux1_compatible in
    match marker with
    | Some b => ret b
    | None => glibc_check 2 5
    end.

Definition is_manylinux2010_compatible : M bool :=
  let! plat := get_platform in
  if negb (bool_decide
             (plat ∈ ["linux_x86_64"; "linux_i686"]%string)) then ret false
  else
    let! marker := manylinux_marker manylinux2010_compatible in
    match marker with
    | Some b => ret b
    | None => glibc_check 2 12
    end.

Definition is_manylinux2014_compatible : M bool :=
  let! plat := get_platform in
  if negb (bool_decide
             (plat ∈ ["linux_x86_64"; "linux_i686"; "linux_aarch64";
                      "linux_armv7l"; "linux_ppc64"; "linux_ppc64le";
                      "linux_s390x"]%string)) then ret false
  else
    let! armhf :=
      (if bool_decide (plat = "linux_armv7l"%string)
       then is_linux_armhf else ret true) in
    if negb armhf then ret false
    else
      let! marker := manylinux_marker manylinux2014_compatible in
      match marker with
      | Some b => ret b
      | None => glibc_check 2 17
      end.

(** ** Compatibility expansion *)

(** [_osx_arch_pat = re.compile(r'(.+)_(\d+)_(\d+)_(.+)')] and its [match]:
    the first group is greedy, so the longest prefix after which the rest
    of the pattern matches is chosen; a dot does not match a newline. *)
Module Re.

Definition is_newline (c : ascii) : bool := Ascii.eqb c "010".

(** The longest run of characters satisfying [p], and what follows. *)
Fixpoint span (p : ascii -> bool) (s : string) : string * string :=
  match s with
  | String c s' =>
      if p c then let '(run, rest) := span p s' in (String c run, rest)
      else (EmptyString, s)
  | EmptyString => (EmptyString, EmptyString)
  end.

(** [_(\d+)_(\d+)_(.+)] at the start of [s]. *)
Definition osx_tail (s : string) : option (string * string * string) :=
  match s with
  | String "_" s1 =>
      match span Py.is_digit s1 with
      | (String _ _ as major, String "_" s2) =>
          match span Py.is_digit s2 with
          | (String _ _ as minor, String "_" s3) =>
              match span (fun c => negb (is_newline c)) s3 with
              | (String _ _ as arch, _) => Some (major, minor, arch)
              | _ => None
              end
          | _ => None
          end
      | _ => None
      end
  | _ => None
  end.

Fixpoint osx_arch_pat_match (s : string)
  : option (string * string * string * string) :=
  match s with
  | EmptyString => None
  | String c s' =>
      if is_newline c then None
      else
        match osx_arch_pat_match s' with
        | Some (name, major, minor, arch) =>
            Some (String c name, major, minor, arch)
        | None =>
            match osx_tail s' with
            | Some (major, minor, arch) =>
                Some (String c EmptyString, major, minor, arch)
            | None => None
            end
        end
  end.

End Re.

Definition of_option {A} (e : exn) (o : option A) : outcome A :=
  match o with
  | Some a => Returns a
  | None => Raises e
  end.

Definition _mac_platforms (arch : string) : M (list string) :=
  match Re.osx_arch_pat_match arch with
  | Some (name, major, minor, actual_arch) =>
      let! major := lift (of_option ValueError (Py.int major)) in
      let! minor := lift (of_option ValueError (Py.int minor)) in
      let mac_version := (major, minor) in
      let! generated :=
        ask (fun env => mac_platforms env mac_version actual_arch) in
      ret (List.map
             (fun arch => name +:+ "_" +:+ Py.drop (String.length "macosx_") arch)
             generated)
  | None =>
      (* arch pattern didn't match (?!) *)
      ret [arch]
  end.

Definition _custom_manylinux_platforms (arch : string) : list string :=
  let arches := [arch] in
  let '(arch_prefix, arch_sep, arch_suffix) := Py.partition "_" arch in
  if bool_decide (arch_prefix = "manylinux2014"%string) then
    if bool_decide (arch_suffix ∈ ["i686"; "x86_64"]%string) then
      arches ++ ["manylinux2010" +:+ arch_sep +:+ arch_suffix]
             ++ ["manylinux1" +:+ arch_sep +:+ arch_suffix]
    else arches
  else if bool_decide (arch_prefix = "manylinux2010"%string) then
    arches ++ ["manylinux1" +:+ arch_sep +:+ arch_suffix]
  else arches.

Definition _get_custom_platforms (arch : string) (platform : option string)
  : M (list string) :=
  let '(arch_prefix, arch_sep, arch_suffix) := Py.partition "_" arch in
  if Py.startswith arch "macosx" then _mac_platforms arch
  else if bool_decide
            (arch_prefix ∈ ["manylinux2014"; "manylinux2010"]%string) then
    ret (_custom_manylinux_platforms arch)
  else
    match platform with
    | None =>
        let arches := [] in
        let! c2014 := is_manylinux2014_compatible in
        let arches :=
          if c2014 then arches ++ ["manylinux2014" +:+ arch_sep +:+ arch_suffix]
          else arches in
        let! c2010 := is_manylinux2010_compatible in
        let arches :=
          if c2010 then arches ++ ["manylinux2010" +:+ arch_sep +:+ arch_suffix]
          else arches in
        let! c1 := is_manylinux1_compatible in
        let arches :=
          if c1 then arches ++ ["manylinux1" +:+ arch_sep +:+ arch_suffix]
          else arches in
        ret (arches ++ [arch])
    | Some _ => ret [arch]
    end.

(** ** ABI resolution *)

Global Instance pyval_eq_dec : EqDecision pyval.
Proof. solve_decision. Defined.

Global Instance byte_eq_dec : EqDecision Byte.byte := Byte.byte_eq_dec.

Definition get_config_var (var : string) : M (option pyval) :=
  let! _ := emit (EvConfigVar var) in
  ask (fun env => config_var env var).

(** Truth value of a configuration value: [None], [0] and [''] are false. *)
Definition pyval_truthy (v : option pyval) : bool :=
  match v with
  | None => false
  | Some (PInt z) => negb (bool_decide (z = 0))
  | Some (PStr s) => negb (bool_decide (s = EmptyString))
  end.

(** [expected] is an integer; Python's [True] is the integer [1]. *)
Definition get_flag (var : string) (fallback : M bool) (expected : Z)
  (warn : bool) : M bool :=
  let! val := get_config_var var in
  match val with
  | None =>
      let! _ := (if warn then emit (EvLogDebug var) else ret tt) in
      fallback
  | Some v => ret (bool_decide (v = PInt expected))
  end.

(** [sys.version_info < (major, minor)]. *)
Definition version_info_lt (v : nat * nat) (bound : nat * nat) : bool :=
  ((fst v <? fst bound)%nat
   || ((fst v =? fst bound)%nat && (snd v <? snd bound)%nat))%bool.

Definition get_abi_tag : M (option string) :=
  let! soabi := get_config_var "SOABI" in
  let! impl := ask interpreter_name in
  let! maxunicode := ask sys_maxunicode in
  if (negb (pyval_truthy soabi)
      && bool_decide (impl ∈ ["cp"; "pp"]%string)
      && bool_decide (is_Some maxunicode))%bool
  then
    let is_cpython := bool_decide (impl = "cp"%string) in
    let! version_info := ask sys_version_info in
    let! debug :=
      get_flag "Py_DEBUG" (ask sys_has_gettotalrefcount) 1 is_cpython in
    let d := if debug then "d"%string else ""%string in
    let! pymalloc :=
      (if version_info_lt version_info (3, 8)%nat
       then get_flag "WITH_PYMALLOC" (ret is_cpython) 1 is_cpython
       else ret false) in
    let m := if pymalloc then "m"%string else ""%string in
    let! wide :=
      (if version_info_lt version_info (3, 3)%nat
       then get_flag "Py_UNICODE_SIZE"
              (ret (bool_decide (maxunicode = Some 0x10ffff))) 4 is_cpython
       else ret false) in
    let u := if wide then "u"%string else ""%string in
    let! version := ask interpreter_version in
    ret (Some (impl +:+ version +:+ d +:+ m +:+ u))
  else if pyval_truthy soabi then
    match soabi with
    | Some (PStr soabi) =>
        if Py.startswith soabi "cpython-" then
          match Py.split "-" soabi with
          | _ :: field :: _ => ret (Some ("cp" +:+ field))
          | _ => raise IndexError
          end
        else ret (Some (Py.replace "-" "_" (Py.replace "." "_" soabi)))
    | _ =>
        (* an integer has no [startswith] *)
        raise AttributeError
    end
  else ret None.

(** ** Interpreter version *)

Definition get_impl_version_info : M (list nat) :=
  let! name := ask interpreter_name in
  let! version_info := ask sys_version_info in
  if bool_decide (name = "pp"%string) then
    let! pypy := ask sys_pypy_version_info in
    ret [fst version_info; fst pypy; snd pypy]
  else ret [fst version_info; snd version_info].

Definition get_all_minor_versions_as_strings (version_info : list nat)
  : outcome (list string) :=
  let major := List.removelast version_info in
  match last version_info with
  | None => Raises IndexError
  | Some newest =>
      Returns (List.map
                 (fun minor => Py.join (List.map Py.str (major ++ [minor])))
                 (Py.countdown newest))
  end.

Definition _get_python_version (version : string) : outcome (list Z) :=
  match version with
  | EmptyString => Raises IndexError
  | String first rest =>
      if (1 <? String.length version)%nat then
        match Py.int (String first EmptyString) with
        | None => Raises ValueError
        | Some major =>
            match Py.int rest with
            | None => Raises ValueError
            | Some minor => Returns [major; minor]
            end
        end
      else
        match Py.int (String first EmptyString) with
        | None => Raises ValueError
        | Some major => Returns [major]
        end
  end.

Definition _get_custom_interpreter (implementation version : option string)
  : M string :=
  let! implementation :=
    match implementation with
    | None => ask interpreter_name
    | Some i => ret i
    end in
  let! version :=
    match version with
    | None => ask interpreter_version
    | Some v => ret v
    end in
  ret (implementation +:+ version).

(** ** Tag assembly *)

(** [x or default] for an optional string [x]. *)
Definition py_or (x : option string) (default : M string) : M string :=
  match x with
  | Some (String _ _ as s) => ret s
  | _ => default
  end.

Definition _generic_tags (version platform impl abi : option string)
  : M (list (string * string * string)) :=
  let! versions :=
    match version with
    | None =>
        let! version_info := get_impl_version_info in
        lift (get_all_minor_versions_as_strings version_info)
    | Some v => ret [v]
    end in
  let! current_version :=
    match versions with
    | v :: _ => ret v
    | [] => raise IndexError
    end in
  let! impl := py_or impl (ask interpreter_name) in
  let abis := [] in
  let! abi := (if Py.truthy abi then ret abi else get_abi_tag) in
  let abis :=
    match abi with
    | Some (String _ _ as a) => a :: abis
    | _ => abis
    end in
  let abis := abis ++ ["none"%string] in
  let! arch := py_or platform get_platform in
  let! arches := _get_custom_platforms arch platform in
  ret (abi ← abis; arch ← arches; [(impl +:+ current_version, abi, arch)]).

Section Tags.

Context {Tag : Type} `{Countable Tag}.

(** What the module uses of [packaging.tags]: the [Tag] constructor and
    the two tag generators, whose results are taken as they come. *)
Record TagLib : Type := {
  Tag_new : string -> string -> string -> Tag;
  cpython_tags :
    option (list Z) -> option (list string) -> option (list string) ->
    list Tag;
  compatible_tags :
    option (list Z) -> string -> option (list string) -> list Tag
}.

Fixpoint _stable_unique_tags_from (observed : gset Tag) (tags : list Tag)
  : list Tag :=
  match tags with
  | [] => []
  | tag :: rest =>
      if decide (tag ∈ observed) then _stable_unique_tags_from observed rest
      else tag :: _stable_unique_tags_from ({[tag]} ∪ observed) rest
  end.

Definition _stable_unique_tags (tags : list Tag) : list Tag :=
  _stable_unique_tags_from ∅ tags.

(** The list [tags] of [get_supported], before it is de-duplicated. *)
Definition get_supported_tags (lib : TagLib)
  (version platform impl abi : option string) : M (list Tag) :=
  let! python_version :=
    match version with
    | Some v =>
        let! parsed := lift (_get_python_version v) in ret (Some parsed)
    | None => ret None
    end in
  let! interpreter := _get_custom_interpreter impl version in
  let abis := (fun a => [a]) <$> abi in
  let! platforms :=
    match platform with
    | Some p => let! ps := _get_custom_platforms p platform in ret (Some ps)
    | None => ret None
    end in
  let! name := py_or impl (ask interpreter_name) in
  let is_cpython := bool_decide (name = "cp"%string) in
  let! supported :=
    (if is_cpython
     then ret (inl <$> cpython_tags lib python_version abis platforms)
     else
       let! generic := _generic_tags version platform impl abi in
       ret (inr <$> generic)) in
  let supported :=
    supported
      ++ (inl <$> compatible_tags lib python_version interpreter platforms) in
  ret ((fun parts : Tag + string * string * string =>
          match parts with
          | inl tag => tag
          | inr (interpreter, abi, platform) =>
              Tag_new lib interpreter abi platform
          end) <$> supported).

Definition get_supported (lib : TagLib)
  (version platform impl abi : option string) : M (list Tag) :=
  let! tags := get_supported_tags lib version platform impl abi in
  ret (_stable_unique_tags tags).

End Tags.

Arguments TagLib Tag : clear implicits.

(** ** Sample environments

    Concrete environments and a concrete tag library on which the
    definitions above are evaluated. *)

Module Samples.

(** A Linux host: what [distutils] reports, the width of the process,
    [SOABI], [sys.maxunicode] and the executable's first bytes vary. *)
Definition linux (raw : string) (maxsize : Z) (soabi : option pyval)
  (maxunicode : option Z) (image : option (list Byte.byte)) : Env := {|
  sys_platform := "linux";
  sys_maxsize := maxsize;
  sys_version_info := (3, 8)%nat;
  sys_pypy_version_info := (0, 0)%nat;
  sys_maxunicode := maxunicode;
  sys_has_gettotalrefcount := false;
  mac_ver := (EmptyString, EmptyString);
  distutils_platform := raw;
  config_var := fun var =>
    if bool_decide (var = "SOABI"%string) then soabi else None;
  executable_image := image;
  manylinux := None;
  have_compatible_glibc := fun major minor =>
    (bool_decide (major = 2) && bool_decide (minor <= 17))%nat;
  interpreter_name := "cp";
  interpreter_version := "38";
  mac_platforms := fun _ _ => []
|}.

Definition linux_cp38 : Env :=
  linux "linux-x86_64" 9223372036854775807
    (Some (PStr "cpython-38-x86_64-linux-gnu")) (Some 0x10ffff) None.

(** A 32-bit interpreter on a 64-bit kernel. *)
Definition linux_32bit : Env :=
  linux "linux-x86_64" 2147483647
    (Some (PStr "cpython-38-i386-linux-gnu")) (Some 0x10ffff) None.

(** The first forty bytes of a hard-float 32-bit ARM executable. *)
Definition armhf_header : list Byte.byte :=
  [x7f; x45; x4c; x46; x01; x01; x01] ++ replicate 9 x00
    ++ [x02; x00; x28; x00; x01; x00; x00; x00] ++ replicate 12 x00
    ++ [x00; x04; x00; x05].

Definition linux_armhf : Env :=
  linux "linux-armv7l" 2147483647
    (Some (PStr "cpython-38-arm-linux-gnueabihf")) (Some 0x10ffff)
    (Some armhf_header).

(** A runtime of the [cp] family with neither [SOABI] nor
    [sys.maxunicode]. *)
Definition cp_bare : Env :=
  linux "linux-x86_64" 9223372036854775807 None None None.

(** A 64-bit Linux host with a [_manylinux] module written for tier 1
    alone: it defines [manylinux1_compatible = False] and no other
    attribute. *)
Definition linux_tier1_marker : Env := {|
  sys_platform := sys_platform linux_cp38;
  sys_maxsize := sys_maxsize linux_cp38;
  sys_version_info := sys_version_info linux_cp38;
  sys_pypy_version_info := sys_pypy_version_info linux_cp38;
  sys_maxunicode := sys_maxunicode linux_cp38;
  sys_has_gettotalrefcount := sys_has_gettotalrefcount linux_cp38;
  mac_ver := mac_ver linux_cp38;
  distutils_platform := distutils_platform linux_cp38;
  config_var := config_var linux_cp38;
  executable_image := executable_image linux_cp38;
  manylinux := Some {| manylinux1_compatible := Some false;
                       manylinux2010_compatible := None;
                       manylinux2014_compatible := None |};
  have_compatible_glibc := have_compatible_glibc linux_cp38;
  interpreter_name := interpreter_name linux_cp38;
  interpreter_version := interpreter_version linux_cp38;
  mac_platforms := mac_platforms linux_cp38
|}.

(** Jython 2.7 on a Linux host: the family is [jy] and the build
    configuration has no [SOABI]. *)
Definition linux_jython : Env := {|
  sys_platform := "linux";
  sys_maxsize := 9223372036854775807;
  sys_version_info := (2, 7)%nat;
  sys_pypy_version_info := (0, 0)%nat;
  sys_maxunicode := Some 0x10ffff;
  sys_has_gettotalrefcount := false;
  mac_ver := (EmptyString, EmptyString);
  distutils_platform := "linux-x86_64";
  config_var := fun _ => None;
  executable_image := None;
  manylinux := None;
  have_compatible_glibc := fun major minor =>
    (bool_decide (major = 2) && bool_decide (minor <= 17))%nat;
  interpreter_name := "jy";
  interpreter_version := "27";
  mac_platforms := fun _ _ => []
|}.

(** Modelled from the spec: the macOS generator of [packaging.tags]
    ([mac_platforms]), which is outside this module.  It "enumerates
    every macOS baseline-version platform string the given minimum version
    satisfies", "from 10.9 down through the oldest supported baseline,
    same architecture, each as a distinct platform entry". *)
Definition mac_baselines (version : Z * Z) (arch : string) : list string :=
  List.map
    (fun minor =>
       "macosx_" +:+ Py.str (Z.to_nat (fst version)) +:+ "_"
         +:+ Py.str minor +:+ "_" +:+ arch)
    (Py.countdown (Z.to_nat (snd version))).

Definition darwin (release machine : string) (maxsize : Z) : Env := {|
  sys_platform := "darwin";
  sys_maxsize := maxsize;
  sys_version_info := (3, 8)%nat;
  sys_pypy_version_info := (0, 0)%nat;
  sys_maxunicode := Some 0x10ffff;
  sys_has_gettotalrefcount := false;
  mac_ver := (release, machine);
  distutils_platform := "macosx-10.9-x86_64";
  config_var := fun var =>
    if bool_decide (var = "SOABI"%string)
    then Some (PStr "cpython-38-darwin") else None;
  executable_image := None;
  manylinux := None;
  have_compatible_glibc := fun _ _ => false;
  interpreter_name := "cp";
  interpreter_version := "38";
  mac_platforms := mac_baselines
|}.

Definition darwin_32bit : Env := darwin "10.15.7" "x86_64" 2147483647.

Definition darwin_ppc_32bit : Env := darwin "10.5.8" "ppc64" 2147483647.

(** Tags as plain triples.  The interpreter-specific generator is empty;
    the compatible generator gives one tag per platform it is handed and
    the universal tag. *)
Definition lib : TagLib (string * string * string) := {|
  Tag_new := fun interpreter abi platform => (interpreter, abi, platform);
  cpython_tags := fun _ _ _ => [];
  compatible_tags := fun _ interpreter platforms =>
    ((fun platform => (interpreter, "none"%string, platform))
       <$> default [] platforms)
      ++ [(interpreter, "none"%string, "any"%string)]
|}.

End Samples.

(** A non-empty string of decimal digits and the number it denotes. *)
Definition all_digits (s : string) : bool :=
  forallb Py.is_digit (list_ascii_of_string s).

Definition decimal_value (s : string) : Z :=
  fold_left (fun acc c => 10 * acc + Py.digit_val c)
    (list_ascii_of_string s) 0.

Definition version_info_to_nodot (version_info : list nat) : string :=
  (* Only use up to the first two numbers. *)
  Py.join (List.map Py.str (List.firstn 2 version_info)).

(** The characters of a string. *)
Definition chars (s : string) : list ascii := list_ascii_of_string s.

(** Queries of the build configuration, and the warnings about them. *)
Definition is_config_query (ev : Event) : bool :=
  match ev with
  | EvConfigVar _ | EvLogDebug _ => true
  | _ => false
  end.

(** A computation none of whose queries satisfies [P]. *)
Definition never_emits {A} (P : Event -> bool) (m : M A) : Prop :=
  forall env, Forall (fun ev => P ev = false) (trace m env).

(** A computation that never asks for the glibc version. *)
Definition glibc_free {A} (m : M A) : Prop :=
  forall env, Forall (fun ev => is_glibc_check ev = false) (trace m env).

(** * Properties *)

(** ** The monad *)

Lemma value_bind {A B} (m : M A) (k : A -> M B) env :
  value (bind m k) env =
  match value m env with
  | Returns a => value (k a) env
  | Raises e => Raises e
  end.
Proof.
  unfold value, bind. destruct (m env) as [[a|e] t]; simpl; [|done].
  by destruct (k a env).
Qed.

Lemma trace_bind {A B} (m : M A) (k : A -> M B) env :
  trace (bind m k) env =
  trace m env ++
  match value m env with
  | Returns a => trace (k a) env
  | Raises e => []
  end.
Proof.
  unfold trace, value, bind. destruct (m env) as [[a|e] t]; simpl.
  - by destruct (k a env).
  - by rewrite app_nil_r.
Qed.

Lemma value_ret {A} (a : A) env : value (ret a) env = Returns a.
Proof. done. Qed.

Lemma value_ask {A} (f : Env -> A) env : value (ask f) env = Returns (f env).
Proof. done. Qed.

Lemma value_emit ev env : value (emit ev) env = Returns tt.
Proof. done. Qed.

Lemma value_raise {A} e env : value (@raise A e) env = Raises e.
Proof. done. Qed.

Lemma value_lift {A} (o : outcome A) env : value (lift o) env = o.
Proof. done. Qed.

(** Rewriting the value of a computation down to its queries. *)
Ltac value_step :=
  repeat (progress
            (rewrite ?value_bind, ?value_ret, ?value_ask, ?value_emit,
               ?value_raise, ?value_lift;
             cbv beta iota)).

(** ** Platform identity *)

Lemma value_is_running_32bit env :
  value _is_running_32bit env =
  Returns (bool_decide (sys_maxsize env = 2147483647)).
Proof. done. Qed.

(** [C8] A 32-bit process (sys.maxsize = 2^31 - 1) whose OS-reported,
    separator-normalised platform is linux_x86_64 is identified as
    linux_i686; on macOS a 32-bit process has machine x86_64 rewritten to
    i386 and ppc64 to ppc before the platform string
    macosx_<major>_<minor>_<machine> is composed. *)
Theorem get_platform_32bit_downgrade env :
  sys_maxsize env = 2147483647 ->
  (sys_platform env ≠ "darwin"%string ->
   Py.replace "-" "_" (Py.replace "." "_" (distutils_platform env))
     = "linux_x86_64"%string ->
   value get_platform env = Returns "linux_i686"%string)
  ∧ (forall release machine v0 v1 rest,
       sys_platform env = "darwin"%string ->
       mac_ver env = (release, machine) ->
       Py.split "." release = v0 :: v1 :: rest ->
       (machine = "x86_64"%string ->
        value get_platform env
          = Returns ("macosx_" +:+ v0 +:+ "_" +:+ v1 +:+ "_i386"))
       ∧ (machine = "ppc64"%string ->
          value get_platform env
            = Returns ("macosx_" +:+ v0 +:+ "_" +:+ v1 +:+ "_ppc"))).
Proof.
  intros H32. split.
  - intros Hos Hraw. unfold get_platform. value_step.
    rewrite bool_decide_eq_false_2 by done. value_step.
    rewrite Hraw. simpl. value_step.
    rewrite value_is_running_32bit, bool_decide_eq_true_2 by done.
    by value_step.
  - intros release machine v0 v1 rest Hos Hver Hsplit.
    assert (Hrun :
      value get_platform env =
      Returns ("macosx_" +:+ v0 +:+ "_" +:+ v1 +:+ "_" +:+
        (if (bool_decide (machine = "x86_64"%string) && true)%bool
         then "i386"%string
         else if (bool_decide (machine = "ppc64"%string) && true)%bool
         then "ppc"%string else machine))).
    { unfold get_platform. value_step.
      rewrite bool_decide_eq_true_2 by done. value_step.
      rewrite Hver. value_step.
      rewrite value_is_running_32bit, H32, Hsplit. by value_step. }
    split; intros ->; rewrite Hrun; reflexivity.
Qed.

Lemma get_platform_32bit_downgrade_witness :
  value get_platform Samples.linux_32bit = Returns "linux_i686"%string
  ∧ value get_platform Samples.darwin_32bit
    = Returns "macosx_10_15_i386"%string
  ∧ value get_platform Samples.darwin_ppc_32bit
    = Returns "macosx_10_5_ppc"%string.
Proof.
  split; [|split].
  - apply (get_platform_32bit_downgrade Samples.linux_32bit eq_refl);
      [discriminate | reflexivity].
  - apply (proj2 (get_platform_32bit_downgrade Samples.darwin_32bit eq_refl)
             "10.15.7"%string "x86_64"%string "10"%string "15"%string
             ["7"%string]); reflexivity.
  - apply (proj2 (get_platform_32bit_downgrade Samples.darwin_ppc_32bit
                    eq_refl)
             "10.5.8"%string "ppc64"%string "10"%string "5"%string
             ["8"%string]); reflexivity.
Defined.

(** ** Kernel ABI probe *)

Lemma byte_to_Z_inj (b c : Byte.byte) :
  Z.of_N (Byte.to_N b) = Z.of_N (Byte.to_N c) -> b = c.
Proof.
  intros Heq%N2Z.inj.
  assert (Hsome : Some b = Some c)
    by (by rewrite <- !Byte.of_to_N, Heq).
  by injection Hsome.
Qed.

Lemma land_4_testbit (x : Z) : Z.land x 4 = 4 <-> Z.testbit x 2 = true.
Proof.
  split.
  - intros Hland.
    assert (Hbit : Z.testbit (Z.land x 4) 2 = true) by (by rewrite Hland).
    rewrite Z.land_spec in Hbit. by apply andb_prop in Hbit as [? _].
  - intros Hbit. apply Z.bits_inj'. intros n Hn.
    rewrite Z.land_spec. change 4 with (2 ^ 2).
    rewrite Z.pow2_bits_eqb by lia.
    destruct (Z.eqb_spec 2 n) as [<-|_].
    + by rewrite Hbit.
    + apply andb_false_r.
Qed.

(** The header checks, when forty bytes could be read. *)
Lemma is_linux_armhf_header env bytes :
  value get_platform env = Returns "linux_armv7l"%string ->
  executable_image env = Some bytes ->
  (40 <= length bytes)%nat ->
  exists flags,
    bytes !! 37%nat = Some flags
    ∧ value is_linux_armhf env =
      Returns
        (bool_decide (bytes !! 0%nat = Some x7f)
         && bool_decide (bytes !! 1%nat = Some x45)
         && bool_decide (bytes !! 2%nat = Some x4c)
         && bool_decide (bytes !! 3%nat = Some x46)
         && bool_decide (bytes !! 4%nat = Some x01)
         && bool_decide (bytes !! 5%nat = Some x01)
         && bool_decide (bytes !! 18%nat = Some x28)
         && bool_decide (bytes !! 19%nat = Some x00)
         && bool_decide (bytes !! 39%nat = Some x05)
         && Z.testbit (Z.of_N (Byte.to_N flags)) 2).
Proof.
  intros Hplat Himage Hlen.
  unfold is_linux_armhf. value_step. rewrite Hplat.
  rewrite bool_decide_eq_true_2 by done. cbn [negb]. value_step.
  rewrite Himage.
  do 40 (destruct bytes as [|? bytes]; [simpl in Hlen; lia|]).
  eexists. split; [reflexivity|].
  cbn [List.firstn length Nat.ltb Nat.leb].
  cbn [Py.slice List.map List.skipn List.firstn Nat.sub].
  value_step. f_equal.
  apply eq_true_iff_eq.
  rewrite !andb_true_iff, !bool_decide_eq_true, land_4_testbit.
  cbn [lookup list_lookup].
  clear. split.
  - intros [[[[[Hmagic H4] H5] Hmachine] Heabi] Hflags].
    injection Hmagic as Hm0 Hm1 Hm2 Hm3.
    injection H4 as H4. injection H5 as H5.
    injection Hmachine as Hma0 Hma1. injection Heabi as Heabi.
    repeat split; try done; f_equal; by apply byte_to_Z_inj.
  - intros [[[[[[[[[Hm0 Hm1] Hm2] Hm3] H4] H5] Hma0] Hma1] Heabi] Hflags].
    simplify_eq. by repeat split.
Qed.

Lemma is_linux_armhf_other_platform env p :
  value get_platform env = Returns p ->
  p ≠ "linux_armv7l"%string ->
  value is_linux_armhf env = Returns false.
Proof.
  intros Hplat Hp. unfold is_linux_armhf. value_step. rewrite Hplat.
  by rewrite bool_decide_eq_false_2 by done.
Qed.

Lemma is_linux_armhf_unreadable env :
  value get_platform env = Returns "linux_armv7l"%string ->
  executable_image env = None ->
  value is_linux_armhf env = Returns false.
Proof.
  intros Hplat Himage. unfold is_linux_armhf. value_step. rewrite Hplat.
  rewrite bool_decide_eq_true_2 by done. cbn [negb]. value_step.
  by rewrite Himage.
Qed.

Lemma is_linux_armhf_short_read env bytes :
  value get_platform env = Returns "linux_armv7l"%string ->
  executable_image env = Some bytes ->
  (length bytes < 40)%nat ->
  value is_linux_armhf env = Returns false.
Proof.
  intros Hplat Himage Hlen. unfold is_linux_armhf. value_step. rewrite Hplat.
  rewrite bool_decide_eq_true_2 by done. cbn [negb]. value_step.
  rewrite Himage.
  assert (Hshort : (length (List.firstn 40 bytes) <? 40)%nat = true).
  { apply Nat.ltb_lt. rewrite List.length_firstn. lia. }
  by rewrite Hshort.
Qed.

(** Once the platform is known the probe returns a boolean. *)
Lemma is_linux_armhf_returns env p :
  value get_platform env = Returns p ->
  exists b, value is_linux_armhf env = Returns b.
Proof.
  intros Hplat.
  destruct (decide (p = "linux_armv7l"%string)) as [->|Hp].
  2:{ eexists. by apply (is_linux_armhf_other_platform env p). }
  destruct (executable_image env) as [bytes|] eqn:Himage.
  2:{ eexists. by apply is_linux_armhf_unreadable. }
  destruct (le_lt_dec 40 (length bytes)) as [Hlen|Hlen].
  2:{ eexists. by apply (is_linux_armhf_short_read env bytes). }
  destruct (is_linux_armhf_header env bytes Hplat Himage Hlen)
    as (flags & _ & ->).
  by eexists.
Qed.

(** [C2] The hard-float probe answers true exactly when the platform is
    linux_armv7l, forty bytes of the running executable could be read, and
    the six header checks hold: ELF magic in bytes 0-3, byte 4 = 1, byte 5 =
    1, bytes 18-19 = 0x28 0x00, byte 39 = 5, bit 2 of byte 37 set.  Whenever
    the platform is known the probe returns a boolean, so an unreadable
    file, a short read or a mismatched byte yields false. *)
Theorem is_linux_armhf_exact env :
  (value is_linux_armhf env = Returns true <->
   value get_platform env = Returns "linux_armv7l"%string
   ∧ exists bytes flags,
       executable_image env = Some bytes
       ∧ (40 <= length bytes)%nat
       ∧ bytes !! 0%nat = Some x7f ∧ bytes !! 1%nat = Some x45
       ∧ bytes !! 2%nat = Some x4c ∧ bytes !! 3%nat = Some x46
       ∧ bytes !! 4%nat = Some x01
       ∧ bytes !! 5%nat = Some x01
       ∧ bytes !! 18%nat = Some x28 ∧ bytes !! 19%nat = Some x00
       ∧ bytes !! 39%nat = Some x05
       ∧ bytes !! 37%nat = Some flags
       ∧ Z.testbit (Z.of_N (Byte.to_N flags)) 2 = true)
  ∧ (forall p,
       value get_platform env = Returns p ->
       exists b, value is_linux_armhf env = Returns b).
Proof.
  split.
  - split.
    + intros Htrue.
      destruct (value get_platform env) as [p|e] eqn:Hplat.
      2:{ unfold is_linux_armhf in Htrue. rewrite value_bind, Hplat in Htrue.
          discriminate. }
      destruct (decide (p = "linux_armv7l"%string)) as [->|Hp].
      2:{ by rewrite (is_linux_armhf_other_platform env p) in Htrue. }
      split; [done|].
      destruct (executable_image env) as [bytes|] eqn:Himage.
      2:{ by rewrite is_linux_armhf_unreadable in Htrue. }
      destruct (le_lt_dec 40 (length bytes)) as [Hlen|Hlen].
      2:{ by rewrite (is_linux_armhf_short_read env bytes) in Htrue. }
      destruct (is_linux_armhf_header env bytes Hplat Himage Hlen)
        as (flags & Hflags & Hvalue).
      rewrite Hvalue in Htrue. injection Htrue as Htrue.
      rewrite !andb_true_iff, !bool_decide_eq_true in Htrue.
      exists bytes, flags. destruct_and!. repeat split; assumption.
    + intros (Hplat & bytes & flags & Himage & Hlen & H0 & H1 & H2 & H3 & H4
              & H5 & H18 & H19 & H39 & H37 & Hbit).
      destruct (is_linux_armhf_header env bytes Hplat Himage Hlen)
        as (flags' & Hflags & ->).
      assert (flags' = flags) as -> by congruence.
      f_equal. rewrite !andb_true_iff, !bool_decide_eq_true.
      repeat split; assumption.
  - apply is_linux_armhf_returns.
Qed.

Lemma is_linux_armhf_exact_witness :
  value is_linux_armhf Samples.linux_armhf = Returns true
  ∧ exists b, value is_linux_armhf Samples.linux_cp38 = Returns b.
Proof.
  split.
  - apply (proj1 (is_linux_armhf_exact Samples.linux_armhf)).
    split; [reflexivity|].
    exists Samples.armhf_header, x04.
    repeat split; reflexivity.
  - apply (proj2 (is_linux_armhf_exact Samples.linux_cp38)
             "linux_x86_64"%string).
    reflexivity.
Defined.

(** ** Environment compatibility predicates *)

(** The two-stage test shared by the three tiers: the marker decides when
    it is there, the glibc floor otherwise. *)
Lemma value_marker_then_glibc env attr major minor :
  value (let! marker := manylinux_marker attr in
         match marker with
         | Some b => ret b
         | None => glibc_check major minor
         end) env
  = Returns (match manylinux env ≫= attr with
             | Some b => b
             | None => have_compatible_glibc env major minor
             end).
Proof.
  unfold manylinux_marker, glibc_check. value_step.
  destruct (manylinux env ≫= attr) as [b|]; by value_step.
Qed.

Lemma marker_then_glibc_true env attr major minor :
  match manylinux env ≫= attr with
  | Some b => b
  | None => have_compatible_glibc env major minor
  end = true
  <-> (manylinux env ≫= attr = Some true
       ∨ (manylinux env ≫= attr = None
          ∧ have_compatible_glibc env major minor = true)).
Proof.
  destruct (manylinux env ≫= attr) as [[]|]; split;
    try done; try (by left); try (by right); by intros [?|[? ?]].
Qed.

(** [C3] as amended: each tier predicate answers true only if (indeed,
    exactly when) the platform is on the tier's allow-list and either the
    _manylinux module defines the attribute of the tier with a true value,
    or the module cannot be imported or does not define the attribute of
    the tier and glibc is at least the floor of the tier (2.5 for tier 1,
    2.12 for tier 2010, 2.17 for tier 2014); tier 2014 on linux_armv7l
    also needs the hard-float probe to answer true. *)
Theorem is_manylinux_compatible_exact env :
  (value is_manylinux1_compatible env = Returns true <->
   exists p,
     value get_platform env = Returns p
     ∧ p ∈ ["linux_x86_64"; "linux_i686"]%string
     ∧ (manylinux env ≫= manylinux1_compatible = Some true
        ∨ (manylinux env ≫= manylinux1_compatible = None
           ∧ have_compatible_glibc env 2 5 = true)))
  ∧ (value is_manylinux2010_compatible env = Returns true <->
     exists p,
       value get_platform env = Returns p
       ∧ p ∈ ["linux_x86_64"; "linux_i686"]%string
       ∧ (manylinux env ≫= manylinux2010_compatible = Some true
          ∨ (manylinux env ≫= manylinux2010_compatible = None
             ∧ have_compatible_glibc env 2 12 = true)))
  ∧ (value is_manylinux2014_compatible env = Returns true <->
     exists p,
       value get_platform env = Returns p
       ∧ p ∈ ["linux_x86_64"; "linux_i686"; "linux_aarch64";
              "linux_armv7l"; "linux_ppc64"; "linux_ppc64le";
              "linux_s390x"]%string
       ∧ (p = "linux_armv7l"%string ->
          value is_linux_armhf env = Returns true)
       ∧ (manylinux env ≫= manylinux2014_compatible = Some true
          ∨ (manylinux env ≫= manylinux2014_compatible = None
             ∧ have_compatible_glibc env 2 17 = true))).
Proof.
  split; [|split].
  - unfold is_manylinux1_compatible. rewrite value_bind.
    destruct (value get_platform env) as [p|e];
      [|split; [done|by intros (? & ? & _)]].
    case_bool_decide as Hp; cbn [negb].
    + rewrite value_marker_then_glibc.
      split.
      * intros [= Hv]. exists p. by rewrite <- marker_then_glibc_true.
      * intros (p' & [= <-] & _ & Hv). f_equal.
        by apply marker_then_glibc_true.
    + rewrite value_ret. split; [done|]. by intros (p' & [= <-] & ? & _).
  - unfold is_manylinux2010_compatible. rewrite value_bind.
    destruct (value get_platform env) as [p|e];
      [|split; [done|by intros (? & ? & _)]].
    case_bool_decide as Hp; cbn [negb].
    + rewrite value_marker_then_glibc.
      split.
      * intros [= Hv]. exists p. by rewrite <- marker_then_glibc_true.
      * intros (p' & [= <-] & _ & Hv). f_equal.
        by apply marker_then_glibc_true.
    + rewrite value_ret. split; [done|]. by intros (p' & [= <-] & ? & _).
  - unfold is_manylinux2014_compatible. rewrite value_bind.
    destruct (value get_platform env) as [p|e];
      [|split; [done|by intros (? & ? & _)]].
    case_bool_decide as Hp; cbn [negb].
    2:{ rewrite value_ret. split; [done|].
        by intros (p' & [= <-] & ? & _). }
    rewrite value_bind.
    case_bool_decide as Harm.
    + destruct (value is_linux_armhf env) as [[]|e] eqn:Hhf; cbn [negb].
      * rewrite value_marker_then_glibc.
        split.
        -- intros [= Hv]. exists p. by rewrite <- marker_then_glibc_true.
        -- intros (p' & [= <-] & _ & _ & Hv). f_equal.
           by apply marker_then_glibc_true.
      * rewrite value_ret. split; [done|].
        intros (p' & [= <-] & _ & Hhard & _). by specialize (Hhard Harm).
      * split; [done|].
        intros (p' & [= <-] & _ & Hhard & _). by specialize (Hhard Harm).
    + rewrite value_ret. cbn [negb].
      rewrite value_marker_then_glibc.
      split.
      * intros [= Hv]. exists p. by rewrite <- marker_then_glibc_true.
      * intros (p' & [= <-] & _ & _ & Hv). f_equal.
        by apply marker_then_glibc_true.
Qed.

Lemma is_manylinux_compatible_exact_witness :
  value is_manylinux1_compatible Samples.linux_cp38 = Returns true
  ∧ value is_manylinux2010_compatible Samples.linux_cp38 = Returns true
  ∧ value is_manylinux2014_compatible Samples.linux_armhf = Returns true.
Proof.
  destruct (is_manylinux_compatible_exact Samples.linux_cp38)
    as (H1 & H2010 & _).
  destruct (is_manylinux_compatible_exact Samples.linux_armhf)
    as (_ & _ & H2014).
  split; [|split].
  - apply H1. exists "linux_x86_64"%string.
    split; [reflexivity|]. split; [repeat constructor|]. right. by split.
  - apply H2010. exists "linux_x86_64"%string.
    split; [reflexivity|]. split; [repeat constructor|]. right. by split.
  - apply H2014. exists "linux_armv7l"%string.
    split; [reflexivity|]. split; [repeat constructor|].
    split; [reflexivity|]. right. by split.
Defined.

(** The claim as first stated fails when the marker module is there but
    is silent about the tier: with a _manylinux that defines only
    manylinux1_compatible, tier 2010 is decided by the glibc check and
    answers true, although the marker does not say yes and a marker module
    is present. *)
Lemma is_manylinux_compatible_exact_counterexample :
  value get_platform Samples.linux_tier1_marker
  = Returns "linux_x86_64"%string
  ∧ value is_manylinux2010_compatible Samples.linux_tier1_marker
    = Returns true
  ∧ ¬ (manylinux Samples.linux_tier1_marker ≫= manylinux2010_compatible
       = Some true
       ∨ (manylinux Samples.linux_tier1_marker = None
          ∧ have_compatible_glibc Samples.linux_tier1_marker 2 12 = true)).
Proof.
  split; [reflexivity|]. split; [reflexivity|].
  by intros [?|[? _]].
Qed.

(** ** Queries made by a computation *)

Lemma glibc_free_ret {A} (a : A) : glibc_free (ret a).
Proof. intros env. constructor. Qed.

Lemma glibc_free_raise {A} e : glibc_free (@raise A e).
Proof. intros env. constructor. Qed.

Lemma glibc_free_ask {A} (f : Env -> A) : glibc_free (ask f).
Proof. intros env. constructor. Qed.

Lemma glibc_free_lift {A} (o : outcome A) : glibc_free (lift o).
Proof. intros env. constructor. Qed.

Lemma glibc_free_emit ev : is_glibc_check ev = false -> glibc_free (emit ev).
Proof. intros Hev env. by repeat constructor. Qed.

Lemma glibc_free_bind {A B} (m : M A) (k : A -> M B) :
  glibc_free m -> (forall a, glibc_free (k a)) -> glibc_free (bind m k).
Proof.
  intros Hm Hk env. rewrite trace_bind. apply Forall_app. split; [apply Hm|].
  destruct (value m env); [apply Hk|constructor].
Qed.

(** Decomposes a computation along its binds and case distinctions. *)
Ltac glibc_free_step :=
  first
    [ apply glibc_free_ret
    | apply glibc_free_raise
    | apply glibc_free_ask
    | apply glibc_free_lift
    | apply glibc_free_emit; reflexivity
    | apply glibc_free_bind; [|intros ?]
    | match goal with
      | |- glibc_free (match ?x with _ => _ end) => destruct x
      end ].

Lemma glibc_free_get_platform : glibc_free get_platform.
Proof. unfold get_platform, _is_running_32bit. repeat glibc_free_step. Qed.

Lemma glibc_free_get_flag var fallback expected warn :
  glibc_free fallback -> glibc_free (get_flag var fallback expected warn).
Proof.
  intros Hfallback. unfold get_flag, get_config_var.
  repeat glibc_free_step; assumption.
Qed.

Lemma glibc_free_get_abi_tag : glibc_free get_abi_tag.
Proof.
  unfold get_abi_tag, get_config_var.
  repeat first [glibc_free_step
               | apply glibc_free_get_flag ].
Qed.

Lemma glibc_free_mac_platforms arch : glibc_free (_mac_platforms arch).
Proof. unfold _mac_platforms. repeat glibc_free_step. Qed.

(** With an explicit override the expansion applies the static family
    rules only. *)
Lemma glibc_free_get_custom_platforms arch p :
  glibc_free (_get_custom_platforms arch (Some p)).
Proof.
  unfold _get_custom_platforms.
  repeat first [glibc_free_step | apply glibc_free_mac_platforms].
Qed.

Lemma glibc_free_py_or x default :
  glibc_free default -> glibc_free (py_or x default).
Proof. intros Hd. unfold py_or. repeat glibc_free_step; assumption. Qed.

Lemma glibc_free_generic_tags version p impl abi :
  glibc_free (_generic_tags version (Some p) impl abi).
Proof.
  unfold _generic_tags, get_impl_version_info.
  repeat first
    [ apply glibc_free_get_custom_platforms
    | apply glibc_free_get_abi_tag
    | apply glibc_free_py_or
    | apply glibc_free_get_platform
    | glibc_free_step ].
Qed.

Lemma glibc_free_get_supported `{Countable Tag} (lib : TagLib Tag)
  version p impl abi :
  glibc_free (get_supported lib version (Some p) impl abi).
Proof.
  unfold get_supported, get_supported_tags, _get_custom_interpreter.
  repeat first
    [ apply glibc_free_get_custom_platforms
    | apply glibc_free_generic_tags
    | apply glibc_free_py_or
    | glibc_free_step ].
Qed.

(** ** Compatibility expansion of named tiers *)

Lemma partition_manylinux2014 a :
  Py.partition "_" ("manylinux2014_" +:+ a)
  = ("manylinux2014"%string, "_"%string, a).
Proof. reflexivity. Qed.

Lemma partition_manylinux2010 a :
  Py.partition "_" ("manylinux2010_" +:+ a)
  = ("manylinux2010"%string, "_"%string, a).
Proof. reflexivity. Qed.

Lemma custom_manylinux_2014 a :
  _custom_manylinux_platforms ("manylinux2014_" +:+ a)
  = if bool_decide (a ∈ ["i686"; "x86_64"]%string)
    then ["manylinux2014_" +:+ a; "manylinux2010_" +:+ a;
          "manylinux1_" +:+ a]
    else ["manylinux2014_" +:+ a].
Proof.
  unfold _custom_manylinux_platforms. rewrite partition_manylinux2014.
  rewrite (bool_decide_eq_true_2 (_ = _)) by done.
  by case_bool_decide.
Qed.

Lemma custom_manylinux_2010 a :
  _custom_manylinux_platforms ("manylinux2010_" +:+ a)
  = ["manylinux2010_" +:+ a; "manylinux1_" +:+ a].
Proof.
  unfold _custom_manylinux_platforms. by rewrite partition_manylinux2010.
Qed.

(** [C1] as amended: a named tier expands to itself followed by the older
    tiers in descending order, never a newer one: manylinux2014_<arch>
    gives manylinux2010_<arch> then manylinux1_<arch> when <arch> is i686 or
    x86_64 and nothing more for any other <arch>; manylinux2010_<arch>
    gives manylinux1_<arch> for every <arch>.  Given as an explicit
    override, the tier is expanded without any query, and no call of
    get_supported with an explicit platform checks the glibc version. *)
Theorem custom_manylinux_expansion (a : string) :
  (a = "i686"%string ∨ a = "x86_64"%string ->
   _custom_manylinux_platforms ("manylinux2014_" +:+ a)
   = ["manylinux2014_" +:+ a; "manylinux2010_" +:+ a; "manylinux1_" +:+ a])
  ∧ (a ≠ "i686"%string -> a ≠ "x86_64"%string ->
     _custom_manylinux_platforms ("manylinux2014_" +:+ a)
     = ["manylinux2014_" +:+ a])
  ∧ _custom_manylinux_platforms ("manylinux2010_" +:+ a)
    = ["manylinux2010_" +:+ a; "manylinux1_" +:+ a]
  ∧ (forall env p,
       p = "manylinux2014_" +:+ a ∨ p = "manylinux2010_" +:+ a ->
       _get_custom_platforms p (Some p) env
       = (Returns (_custom_manylinux_platforms p), []))
  ∧ (forall `{Countable Tag} (lib : TagLib Tag) env version impl abi p,
       Forall (fun ev => is_glibc_check ev = false)
         (trace (get_supported lib version (Some p) impl abi) env)).
Proof.
  split; [|split; [|split; [|split]]].
  - intros Ha. rewrite custom_manylinux_2014.
    rewrite bool_decide_eq_true_2; [done|].
    destruct Ha as [-> | ->]; repeat constructor.
  - intros Hi Hx. rewrite custom_manylinux_2014.
    rewrite bool_decide_eq_false_2; [done|].
    intros Hin. apply elem_of_cons in Hin as [?|Hin]; [done|].
    apply elem_of_cons in Hin as [?|Hin]; [done|].
    by apply elem_of_nil in Hin.
  - apply custom_manylinux_2010.
  - intros env p [-> | ->]; reflexivity.
  - intros Tag ? ? lib env version impl abi p.
    apply glibc_free_get_supported.
Qed.

Lemma custom_manylinux_expansion_witness :
  _custom_manylinux_platforms "manylinux2014_x86_64"
  = ["manylinux2014_x86_64"; "manylinux2010_x86_64";
     "manylinux1_x86_64"]%string
  ∧ _custom_manylinux_platforms "manylinux2014_s390x"
    = ["manylinux2014_s390x"%string]
  ∧ _get_custom_platforms "manylinux2010_i686"
      (Some "manylinux2010_i686"%string) Samples.linux_cp38
    = (Returns ["manylinux2010_i686"; "manylinux1_i686"]%string, []).
Proof.
  split; [|split].
  - apply (proj1 (custom_manylinux_expansion "x86_64")). by right.
  - apply (proj1 (proj2 (custom_manylinux_expansion "s390x"))); discriminate.
  - apply (proj1 (proj2 (proj2 (proj2 (custom_manylinux_expansion "i686"))))
             Samples.linux_cp38 "manylinux2010_i686"%string).
    by right.
Defined.

(** The claim as first stated fails for an architecture outside the
    guard of tier 2014. *)
Lemma custom_manylinux_expansion_counterexample :
  _custom_manylinux_platforms "manylinux2014_aarch64"
  = ["manylinux2014_aarch64"%string]
  ∧ ¬ (forall a : string,
         _custom_manylinux_platforms ("manylinux2014_" +:+ a)
         = ["manylinux2014_" +:+ a; "manylinux2010_" +:+ a;
            "manylinux1_" +:+ a]).
Proof.
  split; [reflexivity|]. intros Hall.
  by specialize (Hall "aarch64"%string).
Qed.

(** ** Stable de-duplication *)

Section StableUnique.

Context `{Countable Tag}.
Implicit Types (tags : list Tag) (observed : gset Tag) (t : Tag).

Lemma stable_unique_from_elem observed tags t :
  t ∈ _stable_unique_tags_from observed tags <-> t ∈ tags ∧ t ∉ observed.
Proof.
  revert observed. induction tags as [|x tags IH]; intros observed; simpl.
  - split; [by intros ?%elem_of_nil|by intros [?%elem_of_nil _]].
  - destruct (decide (x ∈ observed)) as [Hx|Hx].
    + rewrite IH, elem_of_cons. split; [naive_solver|].
      intros [[->|?] ?]; done.
    + rewrite !elem_of_cons, IH. split.
      * intros [->|[? Hnot]]; [by split; [left|]|].
        split; [by right|]. set_solver.
      * intros [[->|?] ?]; [by left|].
        destruct (decide (t = x)) as [->|?]; [by left|].
        right. split; [done|]. set_solver.
Qed.

Lemma stable_unique_from_NoDup observed tags :
  NoDup (_stable_unique_tags_from observed tags).
Proof.
  revert observed. induction tags as [|x tags IH]; intros observed; simpl.
  - constructor.
  - destruct (decide (x ∈ observed)); [apply IH|].
    constructor; [|apply IH].
    rewrite stable_unique_from_elem. set_solver.
Qed.

Lemma stable_unique_from_sublist observed tags :
  _stable_unique_tags_from observed tags `sublist_of` tags.
Proof.
  revert observed. induction tags as [|x tags IH]; intros observed; simpl.
  - constructor.
  - destruct (decide (x ∈ observed)).
    + by apply sublist_cons.
    + by apply sublist_skip.
Qed.

(** One more tag at the end is kept exactly when it is new. *)
Lemma stable_unique_from_snoc observed tags t :
  _stable_unique_tags_from observed (tags ++ [t])
  = _stable_unique_tags_from observed tags
      ++ (if decide (t ∈ observed ∨ t ∈ tags) then [] else [t]).
Proof.
  revert observed. induction tags as [|x tags IH]; intros observed; simpl.
  - destruct (decide (t ∈ observed)) as [Ht|Ht].
    + rewrite decide_True; [done|by left].
    + rewrite decide_False; [done|].
      by intros [?|?%elem_of_nil].
  - destruct (decide (x ∈ observed)) as [Hx|Hx].
    + rewrite IH. f_equal. apply decide_ext.
      rewrite elem_of_cons. split; [naive_solver|].
      intros [?|[->|?]]; auto.
    + simpl. rewrite IH. do 2 f_equal. apply decide_ext.
      rewrite elem_of_cons. set_solver.
Qed.

Lemma stable_unique_snoc tags t :
  _stable_unique_tags (tags ++ [t])
  = _stable_unique_tags tags ++ (if decide (t ∈ tags) then [] else [t]).
Proof.
  unfold _stable_unique_tags. rewrite stable_unique_from_snoc.
  f_equal. apply decide_ext. set_solver.
Qed.

(** Tags come out in the order of their first occurrences. *)
Lemma stable_unique_first_occurrences tags i j a b :
  (i < j)%nat ->
  _stable_unique_tags tags !! i = Some a ->
  _stable_unique_tags tags !! j = Some b ->
  exists i' j',
    (i' < j')%nat
    ∧ tags !! i' = Some a ∧ (a ∉ take i' tags)
    ∧ tags !! j' = Some b ∧ (b ∉ take j' tags).
Proof.
  revert i j a b. induction tags as [|t tags IH] using rev_ind;
    intros i j a b Hij Ha Hb.
  - unfold _stable_unique_tags in Ha. simpl in Ha.
    by rewrite lookup_nil in Ha.
  - assert (Hkeep : forall c i',
      tags !! i' = Some c -> c ∉ take i' tags ->
      (tags ++ [t]) !! i' = Some c ∧ (c ∉ take i' (tags ++ [t]))).
    { intros c i' Hc Hfirst.
      pose proof (lookup_lt_Some _ _ _ Hc) as Hlt.
      rewrite lookup_app_l by done.
      rewrite take_app_le by lia. done. }
    rewrite stable_unique_snoc in Ha, Hb.
    destruct (decide (t ∈ tags)) as [Hin|Hnew].
    + rewrite app_nil_r in Ha, Hb.
      destruct (IH i j a b Hij Ha Hb)
        as (i' & j' & Hlt & Hai & Hafirst & Hbj & Hbfirst).
      exists i', j'.
      destruct (Hkeep a i' Hai Hafirst).
      destruct (Hkeep b j' Hbj Hbfirst). done.
    + apply lookup_snoc_Some in Hb as [[Hjlt Hb]|[Hjeq <-]].
      * rewrite lookup_app_l in Ha by lia.
        destruct (IH i j a b Hij Ha Hb)
          as (i' & j' & Hlt & Hai & Hafirst & Hbj & Hbfirst).
        exists i', j'.
        destruct (Hkeep a i' Hai Hafirst).
        destruct (Hkeep b j' Hbj Hbfirst). done.
      * rewrite lookup_app_l in Ha by lia.
        assert (Hain : a ∈ tags).
        { apply list_elem_of_lookup_2 in Ha.
          unfold _stable_unique_tags in Ha.
          by apply stable_unique_from_elem in Ha as [? _]. }
        apply list_elem_of_split_l in Hain as (l1 & l2 & Hsplit & Hfirst).
        assert (Hai : tags !! length l1 = Some a)
          by (by rewrite Hsplit, list_lookup_middle).
        assert (Hafirst : a ∉ take (length l1) tags)
          by (by rewrite Hsplit, take_app_length).
        exists (length l1), (length tags).
        destruct (Hkeep a (length l1) Hai Hafirst) as [? ?].
        split; [by apply lookup_lt_Some in Hai|].
        split; [done|]. split; [done|].
        rewrite list_lookup_middle by done.
        by rewrite take_app_length.
Qed.

(** [C6] The result of get_supported holds no tag twice.  It is the
    stable de-duplication of the concatenated sequence: it has the same
    tags, is a subsequence of it, and its tags stand in the order of their
    first occurrences there. *)
Theorem get_supported_stable_unique (lib : TagLib Tag) env
  version platform impl abi tags :
  value (get_supported_tags lib version platform impl abi) env
    = Returns tags ->
  exists result,
    value (get_supported lib version platform impl abi) env
      = Returns result
    ∧ NoDup result
    ∧ (forall t, t ∈ result <-> t ∈ tags)
    ∧ result `sublist_of` tags
    ∧ (forall i j a b,
         (i < j)%nat -> result !! i = Some a -> result !! j = Some b ->
         exists i' j',
           (i' < j')%nat
           ∧ tags !! i' = Some a ∧ (a ∉ take i' tags)
           ∧ tags !! j' = Some b ∧ (b ∉ take j' tags)).
Proof.
  intros Htags. exists (_stable_unique_tags tags).
  split; [|split; [|split; [|split]]].
  - unfold get_supported. by rewrite value_bind, Htags.
  - apply stable_unique_from_NoDup.
  - intros t. unfold _stable_unique_tags.
    rewrite stable_unique_from_elem. set_solver.
  - apply stable_unique_from_sublist.
  - apply stable_unique_first_occurrences.
Qed.

End StableUnique.

Lemma get_supported_stable_unique_witness :
  exists result,
    value (get_supported Samples.lib (Some "10"%string)
             (Some "manylinux2010_x86_64"%string) (Some "zz"%string) None)
      Samples.linux_cp38 = Returns result
    ∧ NoDup result.
Proof.
  destruct (get_supported_stable_unique Samples.lib Samples.linux_cp38
              (Some "10"%string) (Some "manylinux2010_x86_64"%string)
              (Some "zz"%string) None
              [("zz10", "cp38", "manylinux2010_x86_64");
               ("zz10", "cp38", "manylinux1_x86_64");
               ("zz10", "none", "manylinux2010_x86_64");
               ("zz10", "none", "manylinux1_x86_64");
               ("zz10", "none", "manylinux2010_x86_64");
               ("zz10", "none", "manylinux1_x86_64");
               ("zz10", "none", "any")]%string eq_refl)
    as (result & Hvalue & Hnodup & _).
  by exists result.
Defined.

(** ** Generic tags *)

(** With a version and a non-empty implementation given and no ABI, the
    generic tags pair the ABI of the running interpreter (when it has one)
    and then [none] with each expanded platform. *)
Lemma value_generic_tags env version c impl platform abi arch arches :
  value get_abi_tag env = Returns abi ->
  value (py_or platform get_platform) env = Returns arch ->
  value (_get_custom_platforms arch platform) env = Returns arches ->
  value (_generic_tags (Some version) platform (Some (String c impl)) None) env
  = Returns
      (abi ← match abi with
             | Some (String _ _ as a) => [a; "none"%string]
             | _ => ["none"%string]
             end;
       arch ← arches; [(String c impl +:+ version, abi, arch)]).
Proof.
  intros Habi Harch Harches. unfold _generic_tags.
  value_step. cbn [py_or Py.truthy]. value_step.
  rewrite Habi. value_step. rewrite Harch. value_step.
  rewrite Harches. value_step.
  by destruct abi as [[|]|].
Qed.

Section GenericFallback.

Context `{Countable Tag} (lib : TagLib Tag).

Lemma tags_of_parts (generic : list (string * string * string))
  (compatible : list Tag) :
  (fun parts : Tag + string * string * string =>
     match parts with
     | inl tag => tag
     | inr (interpreter, abi, platform) =>
         Tag_new lib interpreter abi platform
     end) <$> ((inr <$> generic) ++ (inl <$> compatible))
  = ((fun '(interpreter, abi, platform) =>
        Tag_new lib interpreter abi platform) <$> generic) ++ compatible.
Proof.
  rewrite fmap_app, <- !list_fmap_compose. f_equal.
  exact (list_fmap_id compatible).
Qed.

Lemma tags_of_generic interpreter (abis arches : list string) :
  (fun '(interpreter, abi, platform) =>
     Tag_new lib interpreter abi platform)
    <$> (abi ← abis; arch ← arches; [(interpreter, abi, arch)])
  = abi ← abis; arch ← arches; [Tag_new lib interpreter abi arch].
Proof.
  induction abis as [|a abis IH]; [done|].
  cbn [mbind list_bind]. rewrite fmap_app, IH. f_equal.
  clear IH. induction arches as [|p arches IH]; [done|].
  cbn [mbind list_bind]. by rewrite fmap_app, IH.
Qed.

(** [C4] as amended: get_supported with implementation zz, version 10
    and no ABI returns, for each ABI among the ABI tag of the running
    interpreter (when it resolves to one) and then none, and for each
    platform of the expanded set, most specific first, the tag
    (zz10, ABI, platform), followed by the output of the compatible-tag
    generator, de-duplicated.  Without a platform override the expanded
    set comes from the detected platform, with a non-empty override from
    the override. *)
Theorem get_supported_unknown_family env abi arches :
  value get_abi_tag env = Returns abi ->
  let abis :=
    match abi with
    | Some (String _ _ as a) => [a; "none"%string]
    | _ => ["none"%string]
    end in
  (forall arch,
     value get_platform env = Returns arch ->
     value (_get_custom_platforms arch None) env = Returns arches ->
     value (get_supported lib (Some "10"%string) None (Some "zz"%string)
              None) env
     = Returns
         (_stable_unique_tags
            ((abi ← abis; arch ← arches;
              [Tag_new lib "zz10" abi arch])
               ++ compatible_tags lib (Some [1; 0]) "zz10" None)))
  ∧ (forall c p,
       value (_get_custom_platforms (String c p) (Some (String c p))) env
         = Returns arches ->
       value (get_supported lib (Some "10"%string) (Some (String c p))
                (Some "zz"%string) None) env
       = Returns
           (_stable_unique_tags
              ((abi ← abis; arch ← arches;
                [Tag_new lib "zz10" abi arch])
                 ++ compatible_tags lib (Some [1; 0]) "zz10"
                      (Some arches)))).
Proof.
  intros Habi abis. split.
  - intros arch Harch Harches.
    unfold get_supported, get_supported_tags, _get_custom_interpreter.
    change (_get_python_version "10") with (Returns [1; 0]).
    cbn [py_or]. value_step.
    rewrite bool_decide_eq_false_2 by done. value_step.
    rewrite (value_generic_tags env "10" "z" "z" None abi arch arches)
      by done.
    value_step. by rewrite tags_of_parts, tags_of_generic.
  - intros c p Harches.
    unfold get_supported, get_supported_tags, _get_custom_interpreter.
    change (_get_python_version "10") with (Returns [1; 0]).
    cbn [py_or]. value_step.
    rewrite Harches. value_step.
    rewrite bool_decide_eq_false_2 by done. value_step.
    rewrite (value_generic_tags env "10" "z" "z" (Some (String c p)) abi
               (String c p) arches) by done.
    value_step. by rewrite tags_of_parts, tags_of_generic.
Qed.

End GenericFallback.

Lemma get_supported_unknown_family_witness :
  value (get_supported Samples.lib (Some "10"%string) None
           (Some "zz"%string) None) Samples.cp_bare
  = Returns [("zz10", "none", "manylinux2014_x86_64");
             ("zz10", "none", "manylinux2010_x86_64");
             ("zz10", "none", "manylinux1_x86_64");
             ("zz10", "none", "linux_x86_64");
             ("zz10", "none", "any")]%string.
Proof.
  etrans.
  - apply (proj1 (get_supported_unknown_family Samples.lib Samples.cp_bare
                    None
                    ["manylinux2014_x86_64"; "manylinux2010_x86_64";
                     "manylinux1_x86_64"; "linux_x86_64"]%string eq_refl)
             "linux_x86_64"%string); reflexivity.
  - reflexivity.
Defined.

(** On an interpreter that has an ABI tag of its own the generic tags are
    not all of the shape (zz10, none, platform). *)
Lemma get_supported_unknown_family_counterexample :
  value (get_supported Samples.lib (Some "10"%string) None
           (Some "zz"%string) None) Samples.linux_cp38
  = Returns [("zz10", "cp38", "manylinux2014_x86_64");
             ("zz10", "cp38", "manylinux2010_x86_64");
             ("zz10", "cp38", "manylinux1_x86_64");
             ("zz10", "cp38", "linux_x86_64");
             ("zz10", "none", "manylinux2014_x86_64");
             ("zz10", "none", "manylinux2010_x86_64");
             ("zz10", "none", "manylinux1_x86_64");
             ("zz10", "none", "linux_x86_64");
             ("zz10", "none", "any")]%string
  ∧ value (get_supported Samples.lib (Some "10"%string) None
             (Some "zz"%string) None) Samples.linux_cp38
    ≠ Returns
        (_stable_unique_tags
           (((fun platform => ("zz10", "none", platform))
               <$> ["manylinux2014_x86_64"; "manylinux2010_x86_64";
                    "manylinux1_x86_64"; "linux_x86_64"])
              ++ compatible_tags Samples.lib (Some [1; 0]) "zz10" None))%string.
Proof. split; [reflexivity|]. vm_compute. discriminate. Qed.

(** ** Compatibility expansion *)

Lemma is_manylinux1_returns env p :
  value get_platform env = Returns p ->
  exists b, value is_manylinux1_compatible env = Returns b.
Proof.
  intros Hplat. unfold is_manylinux1_compatible. rewrite value_bind, Hplat.
  case_bool_decide; cbn [negb]; [|by eexists].
  rewrite value_marker_then_glibc. by eexists.
Qed.

Lemma is_manylinux2010_returns env p :
  value get_platform env = Returns p ->
  exists b, value is_manylinux2010_compatible env = Returns b.
Proof.
  intros Hplat. unfold is_manylinux2010_compatible. rewrite value_bind, Hplat.
  case_bool_decide; cbn [negb]; [|by eexists].
  rewrite value_marker_then_glibc. by eexists.
Qed.

Lemma is_manylinux2014_returns env p :
  value get_platform env = Returns p ->
  exists b, value is_manylinux2014_compatible env = Returns b.
Proof.
  intros Hplat. unfold is_manylinux2014_compatible. rewrite value_bind, Hplat.
  case_bool_decide; cbn [negb]; [|by eexists].
  rewrite value_bind. case_bool_decide.
  - destruct (is_linux_armhf_returns env p Hplat) as [[] ->]; cbn [negb].
    + rewrite value_marker_then_glibc. by eexists.
    + by eexists.
  - rewrite value_ret. cbn [negb].
    rewrite value_marker_then_glibc. by eexists.
Qed.

Lemma custom_manylinux_head arch :
  exists older, _custom_manylinux_platforms arch = arch :: older.
Proof.
  unfold _custom_manylinux_platforms.
  destruct (Py.partition "_" arch) as [[arch_prefix arch_sep] arch_suffix].
  repeat case_bool_decide; by eexists.
Qed.

(** A macOS string that the pattern does not match is left as it is. *)
Lemma get_custom_platforms_mac_unparsed env arch platform :
  Py.startswith arch "macosx" = true ->
  Re.osx_arch_pat_match arch = None ->
  _get_custom_platforms arch platform env = (Returns [arch], []).
Proof.
  intros Hmac Hno. unfold _get_custom_platforms.
  destruct (Py.partition "_" arch) as [[arch_prefix arch_sep] arch_suffix].
  rewrite Hmac. unfold _mac_platforms. by rewrite Hno.
Qed.

(** Without an override, an unqualified platform is probed against the
    tiers from the newest to the oldest and comes last itself. *)
Lemma get_custom_platforms_probed env arch p arch_prefix arch_sep arch_suffix :
  Py.startswith arch "macosx" = false ->
  Py.partition "_" arch = (arch_prefix, arch_sep, arch_suffix) ->
  arch_prefix ∉ ["manylinux2014"; "manylinux2010"]%string ->
  value get_platform env = Returns p ->
  exists c2014 c2010 c1,
    value is_manylinux2014_compatible env = Returns c2014
    ∧ value is_manylinux2010_compatible env = Returns c2010
    ∧ value is_manylinux1_compatible env = Returns c1
    ∧ value (_get_custom_platforms arch None) env
      = Returns
          ((if c2014 then ["manylinux2014" +:+ arch_sep +:+ arch_suffix]
            else [])
             ++ (if c2010 then ["manylinux2010" +:+ arch_sep +:+ arch_suffix]
                 else [])
             ++ (if c1 then ["manylinux1" +:+ arch_sep +:+ arch_suffix]
                 else [])
             ++ [arch]).
Proof.
  intros Hmac Hpart Hprefix Hplat.
  destruct (is_manylinux2014_returns env p Hplat) as [c2014 H2014].
  destruct (is_manylinux2010_returns env p Hplat) as [c2010 H2010].
  destruct (is_manylinux1_returns env p Hplat) as [c1 H1].
  exists c2014, c2010, c1. repeat (split; [done|]).
  unfold _get_custom_platforms. rewrite Hpart, Hmac.
  rewrite bool_decide_eq_false_2 by done.
  rewrite value_bind, H2014, value_bind, H2010, value_bind, H1, value_ret.
  by destruct c2014, c2010, c1.
Qed.

(** [C7] as amended: the expansion of a platform string that is not a
    parsed macOS string includes the string itself; on the unqualified
    path without an override the string comes last, after the strings of
    the compatible tiers in the order 2014, 2010, 1; a string that starts
    with macosx and fails to parse is returned unchanged as a singleton.  A
    macOS string that parses expands to what the macOS generator yields,
    each entry with the caller's prefix. *)
Theorem get_custom_platforms_expansion env arch :
  (forall platform,
     Py.startswith arch "macosx" = true ->
     Re.osx_arch_pat_match arch = None ->
     _get_custom_platforms arch platform env = (Returns [arch], []))
  ∧ (forall p arch_prefix arch_sep arch_suffix,
       Py.startswith arch "macosx" = false ->
       Py.partition "_" arch = (arch_prefix, arch_sep, arch_suffix) ->
       arch_prefix ∉ ["manylinux2014"; "manylinux2010"]%string ->
       value get_platform env = Returns p ->
       exists c2014 c2010 c1,
         value is_manylinux2014_compatible env = Returns c2014
         ∧ value is_manylinux2010_compatible env = Returns c2010
         ∧ value is_manylinux1_compatible env = Returns c1
         ∧ value (_get_custom_platforms arch None) env
           = Returns
               ((if c2014
                 then ["manylinux2014" +:+ arch_sep +:+ arch_suffix] else [])
                  ++ (if c2010
                      then ["manylinux2010" +:+ arch_sep +:+ arch_suffix]
                      else [])
                  ++ (if c1
                      then ["manylinux1" +:+ arch_sep +:+ arch_suffix]
                      else [])
                  ++ [arch]))
  ∧ (forall platform,
       Py.startswith arch "macosx" = false
       ∨ Re.osx_arch_pat_match arch = None ->
       is_Some platform ∨ (exists p, value get_platform env = Returns p) ->
       exists arches,
         value (_get_custom_platforms arch platform) env = Returns arches
         ∧ arch ∈ arches)
  ∧ (forall platform name major minor actual_arch major_version minor_version,
       Py.startswith arch "macosx" = true ->
       Re.osx_arch_pat_match arch = Some (name, major, minor, actual_arch) ->
       Py.int major = Some major_version ->
       Py.int minor = Some minor_version ->
       value (_get_custom_platforms arch platform) env
       = Returns
           ((fun generated => name +:+ "_" +:+ Py.drop 7 generated)
              <$> mac_platforms env (major_version, minor_version)
                    actual_arch)).
Proof.
  split; [|split; [|split]].
  - intros platform. apply get_custom_platforms_mac_unparsed.
  - intros p arch_prefix arch_sep arch_suffix.
    apply get_custom_platforms_probed.
  - intros platform Hshape Hknown.
    destruct (Py.startswith arch "macosx") eqn:Hmac.
    { destruct Hshape as [?|Hno]; [done|]. exists [arch].
      unfold value.
      rewrite (get_custom_platforms_mac_unparsed env arch platform Hmac Hno).
      split; [done|]. constructor. }
    destruct (Py.partition "_" arch)
      as [[arch_prefix arch_sep] arch_suffix] eqn:Hpart.
    destruct (decide (arch_prefix ∈ ["manylinux2014"; "manylinux2010"]%string))
      as [Htier|Htier].
    { destruct (custom_manylinux_head arch) as [older Holder].
      exists (arch :: older). split; [|constructor].
      unfold _get_custom_platforms. rewrite Hpart, Hmac.
      rewrite bool_decide_eq_true_2 by done. by rewrite value_ret, Holder. }
    destruct platform as [override|].
    { exists [arch]. split; [|constructor].
      unfold _get_custom_platforms. rewrite Hpart, Hmac.
      by rewrite bool_decide_eq_false_2 by done. }
    destruct Hknown as [[? [=]]|[p Hplat]].
    destruct (get_custom_platforms_probed env arch p _ _ _ Hmac Hpart Htier
                Hplat) as (c2014 & c2010 & c1 & _ & _ & _ & ->).
    eexists. split; [done|].
    rewrite !elem_of_app. do 3 right. constructor.
  - intros platform name major minor actual_arch major_version minor_version
      Hmac Hmatch Hmajor Hminor.
    unfold _get_custom_platforms.
    destruct (Py.partition "_" arch) as [[arch_prefix arch_sep] arch_suffix].
    rewrite Hmac. unfold _mac_platforms. rewrite Hmatch, Hmajor, Hminor.
    by value_step.
Qed.

Lemma get_custom_platforms_expansion_witness :
  _get_custom_platforms "macosx_10_x86_64" None Samples.darwin_32bit
  = (Returns ["macosx_10_x86_64"%string], [])
  ∧ (exists arches,
       value (_get_custom_platforms "linux_x86_64" None) Samples.linux_cp38
         = Returns arches
       ∧ "linux_x86_64"%string ∈ arches)
  ∧ value (_get_custom_platforms "macosx_10_2_ppc" None) Samples.darwin_32bit
    = Returns ["macosx_10_2_ppc"; "macosx_10_1_ppc";
               "macosx_10_0_ppc"]%string.
Proof.
  split; [|split].
  - apply (proj1 (get_custom_platforms_expansion Samples.darwin_32bit
                    "macosx_10_x86_64")); reflexivity.
  - apply (proj1 (proj2 (proj2 (get_custom_platforms_expansion
                                  Samples.linux_cp38 "linux_x86_64")))).
    + by left.
    + right. by exists "linux_x86_64"%string.
  - apply (proj2 (proj2 (proj2 (get_custom_platforms_expansion
                                  Samples.darwin_32bit "macosx_10_2_ppc")))
             None "macosx"%string "10"%string "2"%string "ppc"%string 10 2);
      reflexivity.
Defined.

(** A macOS string written with leading zeros parses, and the generated
    platforms do not include it. *)
Lemma get_custom_platforms_expansion_counterexample :
  value (_get_custom_platforms "macosx_010_02_ppc"
           (Some "macosx_010_02_ppc"%string)) Samples.darwin_32bit
  = Returns ["macosx_10_2_ppc"; "macosx_10_1_ppc"; "macosx_10_0_ppc"]%string
  ∧ "macosx_010_02_ppc"%string
    ∉ ["macosx_10_2_ppc"; "macosx_10_1_ppc"; "macosx_10_0_ppc"]%string.
Proof.
  split; [reflexivity|].
  intros Hin. repeat (apply elem_of_cons in Hin as [?|Hin]; [done|]).
  by apply elem_of_nil in Hin.
Qed.

(** ** Parsing integers and versions *)

Lemma is_digit_not_space c : Py.is_digit c = true -> Py.is_space c = false.
Proof.
  destruct c as [[] [] [] [] [] [] [] []]; try discriminate; reflexivity.
Qed.

Lemma digit_val_range c : Py.is_digit c = true -> 0 <= Py.digit_val c <= 9.
Proof.
  destruct c as [[] [] [] [] [] [] [] []]; try discriminate;
    intros _; vm_compute; split; discriminate.
Qed.

(** [int] of one character: the character is a digit. *)
Lemma int_one_char c z :
  Py.int (String c EmptyString) = Some z ->
  Py.is_digit c = true ∧ z = Py.digit_val c.
Proof.
  destruct c as [[] [] [] [] [] [] [] []]; vm_compute; intros Hz;
    try discriminate; by injection Hz as <-.
Qed.

Lemma int_first_digit c s :
  Py.is_digit c = true ->
  match String c s with
  | String "+" r => Py.int_body r
  | String "-" r => Z.opp <$> Py.int_body r
  | t => Py.int_body t
  end = Py.int_digits (Py.digit_val c) s.
Proof.
  destruct c as [[] [] [] [] [] [] [] []]; try discriminate; reflexivity.
Qed.

Lemma all_digits_cons c s :
  all_digits (String c s) = true <->
  Py.is_digit c = true ∧ all_digits s = true.
Proof. unfold all_digits. simpl. apply andb_true_iff. Qed.

Lemma rstrip_digits s : all_digits s = true -> Py.rstrip s = s.
Proof.
  induction s as [|c s IH]; [done|].
  intros [Hc Hs]%all_digits_cons. simpl. rewrite (IH Hs).
  destruct s; [|done]. by rewrite (is_digit_not_space c Hc).
Qed.

Lemma int_digits_digits acc s :
  all_digits s = true ->
  Py.int_digits acc s
  = Some (fold_left (fun acc c => 10 * acc + Py.digit_val c)
            (list_ascii_of_string s) acc).
Proof.
  revert acc. induction s as [|c s IH]; intros acc; [done|].
  intros [Hc Hs]%all_digits_cons. simpl. rewrite Hc. by apply IH.
Qed.

(** [int] of a non-empty string of digits is the number it denotes. *)
Lemma int_digit_string s :
  s ≠ EmptyString -> all_digits s = true -> Py.int s = Some (decimal_value s).
Proof.
  destruct s as [|c s]; [done|]. intros _ Hall.
  pose proof Hall as [Hc Hs]%all_digits_cons.
  unfold Py.int. cbn [Py.lstrip]. rewrite (is_digit_not_space c Hc).
  rewrite (rstrip_digits _ Hall), (int_first_digit c s Hc).
  by rewrite int_digits_digits.
Qed.

(** [C10] A version string of more than one character is parsed as the
    integer value of its first character and the integer value of all the
    remaining characters, so 310 is (3, 10) and 10 is (1, 0); a string of
    one character gives the major version alone.  However the string is
    written, the major version is a single digit.  The parsed version is
    what get_supported hands to the tag generators. *)
Theorem get_python_version_parse :
  (forall c rest major minor,
     rest ≠ EmptyString ->
     Py.int (String c EmptyString) = Some major ->
     Py.int rest = Some minor ->
     _get_python_version (String c rest) = Returns [major; minor])
  ∧ (forall c rest,
       rest ≠ EmptyString ->
       Py.is_digit c = true -> all_digits rest = true ->
       _get_python_version (String c rest)
       = Returns [Py.digit_val c; decimal_value rest])
  ∧ (forall c,
       Py.is_digit c = true ->
       _get_python_version (String c EmptyString)
       = Returns [Py.digit_val c])
  ∧ _get_python_version "310" = Returns [3; 10]
  ∧ _get_python_version "10" = Returns [1; 0]
  ∧ (forall version parsed,
       _get_python_version version = Returns parsed ->
       exists major rest,
         parsed = major :: rest
         ∧ 0 <= major <= 9
         ∧ (length rest <= 1)%nat
         ∧ (length rest = 1%nat <-> (1 < String.length version)%nat))
  ∧ (forall `{Countable Tag} (lib : TagLib Tag) env version parsed abi,
       _get_python_version version = Returns parsed ->
       value (get_supported lib (Some version) None (Some "cp"%string) abi)
         env
       = Returns
           (_stable_unique_tags
              (cpython_tags lib (Some parsed) ((fun a => [a]) <$> abi) None
                 ++ compatible_tags lib (Some parsed) ("cp" +:+ version)
                      None))).
Proof.
  assert (Hgeneral : forall c rest major minor,
    rest ≠ EmptyString ->
    Py.int (String c EmptyString) = Some major ->
    Py.int rest = Some minor ->
    _get_python_version (String c rest) = Returns [major; minor]).
  { intros c rest major minor Hrest Hmajor Hminor.
    destruct rest as [|d rest]; [done|].
    unfold _get_python_version. cbn [String.length Nat.ltb Nat.leb].
    by rewrite Hmajor, Hminor. }
  assert (Hone : forall c,
    Py.is_digit c = true ->
    Py.int (String c EmptyString) = Some (Py.digit_val c)).
  { intros c Hc. rewrite int_digit_string.
    - unfold decimal_value. simpl. f_equal; lia.
    - done.
    - apply all_digits_cons. by split. }
  split; [exact Hgeneral|]. split; [|split; [|split; [|split; [|split]]]].
  - intros c rest Hrest Hc Hall. apply Hgeneral; [done|by apply Hone|].
    by apply int_digit_string.
  - intros c Hc. unfold _get_python_version.
    cbn [String.length Nat.ltb Nat.leb]. by rewrite (Hone c Hc).
  - reflexivity.
  - reflexivity.
  - intros version parsed Hparsed.
    destruct version as [|c rest]; [done|].
    unfold _get_python_version in Hparsed.
    destruct rest as [|d rest]; cbn [String.length Nat.ltb Nat.leb] in Hparsed.
    + destruct (Py.int (String c EmptyString)) as [major|] eqn:Hmajor;
        [|done].
      injection Hparsed as <-. apply int_one_char in Hmajor as [Hc ->].
      exists (Py.digit_val c), []. split; [done|].
      split; [by apply digit_val_range|]. simpl. split; [lia|]. lia.
    + destruct (Py.int (String c EmptyString)) as [major|] eqn:Hmajor;
        [|done].
      destruct (Py.int (String d rest)) as [minor|]; [|done].
      injection Hparsed as <-. apply int_one_char in Hmajor as [Hc ->].
      exists (Py.digit_val c), [minor]. split; [done|].
      split; [by apply digit_val_range|]. simpl. split; [lia|]. lia.
  - intros Tag ? ? lib env version parsed abi Hparsed.
    unfold get_supported, get_supported_tags, _get_custom_interpreter.
    cbn [py_or]. value_step. rewrite Hparsed. value_step.
    rewrite bool_decide_eq_true_2 by done. value_step.
    do 2 f_equal. rewrite fmap_app, <- !list_fmap_compose.
    f_equal; apply list_fmap_id.
Qed.

Lemma get_python_version_parse_witness :
  _get_python_version "27" = Returns [2; 7]
  ∧ exists major rest,
      [3; 10] = major :: rest
      ∧ 0 <= major <= 9
      ∧ (length rest <= 1)%nat
      ∧ (length rest = 1%nat <-> (1 < String.length "310")%nat).
Proof.
  split.
  - apply (proj1 (proj2 get_python_version_parse) "2"%char "7"%string);
      [discriminate|reflexivity|reflexivity].
  - apply (proj1 (proj2 (proj2 (proj2 (proj2 (proj2
             get_python_version_parse))))) "310"%string [3; 10]).
    reflexivity.
Defined.

(** ** ABI resolution *)

Lemma value_get_flag env var fallback expected warn :
  value (get_flag var fallback expected warn) env
  = match config_var env var with
    | None => value fallback env
    | Some v => Returns (bool_decide (v = PInt expected))
    end.
Proof.
  unfold get_flag, get_config_var. value_step.
  destruct (config_var env var); [done|]. value_step. by destruct warn.
Qed.

(** The first field of a dash-separated string. *)
Lemma split_first_field field tail :
  forallb (fun c => negb (Ascii.eqb c "-")) (list_ascii_of_string field)
    = true ->
  tail = EmptyString ∨ (exists t, tail = String "-" t) ->
  exists rest, Py.split "-" (field +:+ tail) = field :: rest.
Proof.
  intros Hfield Htail. induction field as [|c field IH].
  - destruct Htail as [->|[t ->]]; by eexists.
  - simpl in Hfield. apply andb_prop in Hfield as [Hc Hfield].
    destruct (IH Hfield) as [rest Hrest]. exists rest.
    simpl. apply negb_true_iff in Hc. by rewrite Hc, Hrest.
Qed.

Lemma startswith_append p s : Py.startswith (p +:+ s) p = true.
Proof.
  unfold Py.startswith. induction p as [|c p IH]; simpl.
  - by destruct s.
  - by destruct (ascii_dec c c).
Qed.

(** The ABI tag put together from the family, the version and the build
    flags. *)
Lemma get_abi_tag_synthesized env maxunicode :
  pyval_truthy (config_var env "SOABI") = false ->
  interpreter_name env ∈ ["cp"; "pp"]%string ->
  sys_maxunicode env = Some maxunicode ->
  let flag var (fallback : bool) expected :=
    match config_var env var with
    | Some v => bool_decide (v = PInt expected)
    | None => fallback
    end in
  let is_cpython := bool_decide (interpreter_name env = "cp"%string) in
  let d :=
    if flag "Py_DEBUG"%string (sys_has_gettotalrefcount env) 1
    then "d"%string else ""%string in
  let m :=
    if (version_info_lt (sys_version_info env) (3, 8)%nat
        && flag "WITH_PYMALLOC"%string is_cpython 1)%bool
    then "m"%string else ""%string in
  let u :=
    if (version_info_lt (sys_version_info env) (3, 3)%nat
        && flag "Py_UNICODE_SIZE"%string
             (bool_decide (maxunicode = 0x10ffff)) 4)%bool
    then "u"%string else ""%string in
  value get_abi_tag env
  = Returns (Some (interpreter_name env +:+ interpreter_version env
                     +:+ d +:+ m +:+ u)).
Proof.
  intros Hsoabi Hname Hmax flag is_cpython d m u.
  unfold get_abi_tag, get_config_var. value_step.
  rewrite Hsoabi, Hmax. cbn [negb andb].
  rewrite (bool_decide_eq_true_2 (_ ∈ _)) by done.
  rewrite (bool_decide_eq_true_2 (is_Some _)) by done.
  cbn [andb]. value_step. rewrite value_get_flag.
  subst d m u flag is_cpython. cbv beta.
  assert (Hwide : bool_decide (Some maxunicode = Some 1114111)
                  = bool_decide (maxunicode = 1114111))
    by (apply bool_decide_ext; split; congruence).
  destruct (config_var env "Py_DEBUG") as [debug|]; value_step;
    destruct (version_info_lt (sys_version_info env) (3%nat, 8%nat));
    value_step; rewrite ?value_get_flag;
    destruct (config_var env "WITH_PYMALLOC") as [pymalloc|]; value_step;
    destruct (version_info_lt (sys_version_info env) (3%nat, 3%nat));
    value_step; rewrite ?value_get_flag;
    destruct (config_var env "Py_UNICODE_SIZE") as [wide|]; value_step;
    cbn [andb]; rewrite ?Hwide; done.
Qed.

(** [C9] With no ABI supplied, a SOABI that starts with cpython- resolves
    to cp followed by its second dash-separated field; any other SOABI that
    is present (a non-empty string) resolves to itself with every dot and
    dash replaced by an underscore; otherwise, for the cp and pp families,
    the ABI is the family, the interpreter version and the optional markers
    d, m and u, each read from the build configuration with a runtime
    fallback.  No ABI is resolved exactly when none of these applies (no
    SOABI, and a family other than cp and pp), and the generic tags then
    use none alone.  The interpreter is taken to have sys.maxunicode, as
    every CPython and PyPy has. *)
Theorem get_abi_tag_resolution env :
  (forall soabi field tail,
     config_var env "SOABI" = Some (PStr soabi) ->
     soabi = "cpython-" +:+ field +:+ tail ->
     forallb (fun c => negb (Ascii.eqb c "-")) (list_ascii_of_string field)
       = true ->
     tail = EmptyString ∨ (exists t, tail = String "-" t) ->
     value get_abi_tag env = Returns (Some ("cp" +:+ field)))
  ∧ (forall soabi,
       config_var env "SOABI" = Some (PStr soabi) ->
       soabi ≠ EmptyString ->
       Py.startswith soabi "cpython-" = false ->
       value get_abi_tag env
       = Returns (Some (Py.replace "-" "_" (Py.replace "." "_" soabi))))
  ∧ (forall maxunicode,
       pyval_truthy (config_var env "SOABI") = false ->
       interpreter_name env ∈ ["cp"; "pp"]%string ->
       sys_maxunicode env = Some maxunicode ->
       let flag var (fallback : bool) expected :=
         match config_var env var with
         | Some v => bool_decide (v = PInt expected)
         | None => fallback
         end in
       let is_cpython := bool_decide (interpreter_name env = "cp"%string) in
       let d :=
         if flag "Py_DEBUG"%string (sys_has_gettotalrefcount env) 1
         then "d"%string else ""%string in
       let m :=
         if (version_info_lt (sys_version_info env) (3, 8)%nat
             && flag "WITH_PYMALLOC"%string is_cpython 1)%bool
         then "m"%string else ""%string in
       let u :=
         if (version_info_lt (sys_version_info env) (3, 3)%nat
             && flag "Py_UNICODE_SIZE"%string
                  (bool_decide (maxunicode = 0x10ffff)) 4)%bool
         then "u"%string else ""%string in
       value get_abi_tag env
       = Returns (Some (interpreter_name env +:+ interpreter_version env
                          +:+ d +:+ m +:+ u)))
  ∧ (is_Some (sys_maxunicode env) ->
     (value get_abi_tag env = Returns None
      <-> pyval_truthy (config_var env "SOABI") = false
          ∧ interpreter_name env ∉ ["cp"; "pp"]%string))
  ∧ (forall version c impl platform arch arches,
       value get_abi_tag env = Returns None ->
       value (py_or platform get_platform) env = Returns arch ->
       value (_get_custom_platforms arch platform) env = Returns arches ->
       value (_generic_tags (Some version) platform (Some (String c impl))
                None) env
       = Returns
           (arch ← arches; [(String c impl +:+ version, "none"%string, arch)])).
Proof.
  split; [|split; [|split; [|split]]].
  - intros soabi field tail Hsoabi -> Hfield Htail.
    destruct (split_first_field field tail Hfield Htail) as [rest Hrest].
    unfold get_abi_tag, get_config_var. value_step. rewrite Hsoabi.
    cbn [pyval_truthy negb andb]. rewrite bool_decide_eq_false_2 by done.
    cbn [negb andb].
    rewrite startswith_append.
    change (Py.split "-" ("cpython-" +:+ field +:+ tail))
      with ("cpython"%string :: Py.split "-" (field +:+ tail)).
    rewrite Hrest. by value_step.
  - intros soabi Hsoabi Hne Hstart.
    unfold get_abi_tag, get_config_var. value_step. rewrite Hsoabi.
    cbn [pyval_truthy negb andb]. rewrite bool_decide_eq_false_2 by done.
    cbn [negb andb]. rewrite Hstart. by value_step.
  - apply get_abi_tag_synthesized.
  - intros [maxunicode Hmax].
    destruct (pyval_truthy (config_var env "SOABI")) eqn:Hsoabi.
    + split; [|by intros [? _]].
      unfold get_abi_tag, get_config_var. value_step.
      rewrite Hsoabi. cbn [negb andb].
      destruct (config_var env "SOABI") as [[z|soabi]|]; [done| |done].
      destruct (Py.startswith soabi "cpython-"); [|done].
      by destruct (Py.split "-" soabi) as [|? [|field ?]].
    + destruct (decide (interpreter_name env ∈ ["cp"; "pp"]%string))
        as [Hname|Hname].
      * rewrite (get_abi_tag_synthesized env maxunicode) by done.
        split; [done|]. by intros [_ ?].
      * split; [done|]. intros _.
        unfold get_abi_tag, get_config_var. value_step.
        rewrite Hsoabi. cbn [negb andb].
        by rewrite (bool_decide_eq_false_2 (_ ∈ _)) by done.
  - intros version c impl platform arch arches Habi Harch Harches.
    rewrite (value_generic_tags env version c impl platform None arch
               arches) by done.
    cbn [mbind list_bind]. by rewrite app_nil_r.
Qed.

Lemma get_abi_tag_resolution_witness :
  value get_abi_tag Samples.linux_cp38 = Returns (Some "cp38"%string)
  ∧ value get_abi_tag
      (Samples.linux "linux-x86_64" 9223372036854775807 None
         (Some 0x10ffff) None)
    = Returns (Some "cp38"%string)
  ∧ value get_abi_tag
      (Samples.linux "linux-x86_64" 9223372036854775807
         (Some (PStr "pypy36-pp73")) (Some 0x10ffff) None)
    = Returns (Some "pypy36_pp73"%string)
  ∧ value get_abi_tag Samples.linux_jython = Returns None
  ∧ value (_generic_tags (Some "27"%string) None (Some "jy"%string) None)
      Samples.linux_jython
    = Returns [("jy27", "none", "manylinux2014_x86_64");
               ("jy27", "none", "manylinux2010_x86_64");
               ("jy27", "none", "manylinux1_x86_64");
               ("jy27", "none", "linux_x86_64")]%string.
Proof.
  split; [|split; [|split; [|split]]].
  4:{ apply (proj1 (proj2 (proj2 (proj2 (get_abi_tag_resolution
               Samples.linux_jython))))).
      - by eexists.
      - split; [reflexivity|]. intros Hin.
        repeat (apply elem_of_cons in Hin as [?|Hin]; [done|]).
        by apply elem_of_nil in Hin. }
  4:{ apply (proj2 (proj2 (proj2 (proj2 (get_abi_tag_resolution
               Samples.linux_jython)))) "27"%string "j"%char "y"%string
               None "linux_x86_64"%string
               ["manylinux2014_x86_64"; "manylinux2010_x86_64";
                "manylinux1_x86_64"; "linux_x86_64"]%string);
        reflexivity. }
  - apply (proj1 (get_abi_tag_resolution Samples.linux_cp38)
             "cpython-38-x86_64-linux-gnu"%string "38"%string
             "-x86_64-linux-gnu"%string); try reflexivity.
    right. by eexists.
  - apply (proj1 (proj2 (proj2 (get_abi_tag_resolution
             (Samples.linux "linux-x86_64" 9223372036854775807 None
                (Some 0x10ffff) None)))) 0x10ffff);
      [reflexivity|repeat constructor|reflexivity].
  - apply (proj1 (proj2 (get_abi_tag_resolution
             (Samples.linux "linux-x86_64" 9223372036854775807
                (Some (PStr "pypy36-pp73")) (Some 0x10ffff) None)))
             "pypy36-pp73"%string); [reflexivity|discriminate|reflexivity].
Defined.

(** ** When the entry point returns *)

Lemma get_platform_returns env :
  sys_platform env ≠ "darwin"%string
  ∨ (exists v0 v1 rest, Py.split "." (fst (mac_ver env)) = v0 :: v1 :: rest) ->
  exists p, value get_platform env = Returns p.
Proof.
  intros Hos. unfold get_platform. value_step. case_bool_decide as Hdarwin.
  - destruct Hos as [?|(v0 & v1 & rest & Hsplit)]; [done|].
    value_step. destruct (mac_ver env) as [release machine].
    simpl in Hsplit. value_step.
    rewrite value_is_running_32bit, Hsplit.
    eexists. by value_step.
  - value_step. case_bool_decide; [|by eexists].
    rewrite value_bind, value_is_running_32bit.
    case_bool_decide; by eexists.
Qed.

Lemma startswith_inv s p :
  Py.startswith s p = true -> exists r, s = p +:+ r.
Proof.
  unfold Py.startswith. revert s. induction p as [|c p IH]; intros s Hs.
  - by exists s.
  - destruct s as [|d s]; [done|]. simpl in Hs.
    destruct (ascii_dec c d) as [<-|]; [|done].
    destruct (IH s Hs) as [r ->]. by exists r.
Qed.

Lemma split_nonempty sep s : exists w ws, Py.split sep s = w :: ws.
Proof.
  induction s as [|c s (w & ws & IH)]; simpl; [by eexists _, _|].
  rewrite IH. destruct (Ascii.eqb c sep); by eexists _, _.
Qed.

Lemma get_abi_tag_returns env :
  (forall z, config_var env "SOABI" = Some (PInt z) -> z = 0) ->
  exists abi, value get_abi_tag env = Returns abi.
Proof.
  intros Hstr.
  destruct (pyval_truthy (config_var env "SOABI")) eqn:Htruthy.
  - unfold get_abi_tag, get_config_var. value_step.
    rewrite Htruthy. cbn [negb andb].
    destruct (config_var env "SOABI") as [[z|soabi]|] eqn:Hsoabi; [| |done].
    + rewrite (Hstr z eq_refl) in Htruthy. done.
    + destruct (Py.startswith soabi "cpython-") eqn:Hstart; [|by eexists].
      apply startswith_inv in Hstart as [r ->].
      change (Py.split "-" ("cpython-" +:+ r))
        with ("cpython"%string :: Py.split "-" r).
      destruct (split_nonempty "-" r) as (w & ws & ->). by eexists.
  - destruct (decide (interpreter_name env ∈ ["cp"; "pp"]%string))
      as [Hname|Hname];
      [destruct (sys_maxunicode env) as [maxunicode|] eqn:Hmax|].
    + eexists. by apply (get_abi_tag_synthesized env maxunicode).
    + exists None. unfold get_abi_tag, get_config_var. value_step.
      rewrite Htruthy, Hmax. rewrite (bool_decide_eq_false_2 (is_Some _)).
      * by rewrite andb_false_r.
      * by intros [? ?].
    + exists None. unfold get_abi_tag, get_config_var. value_step.
      rewrite Htruthy. by rewrite (bool_decide_eq_false_2 (_ ∈ _)) by done.
Qed.

(** What the pattern captures as major and minor version are digits. *)
Lemma span_digits s run rest :
  Re.span Py.is_digit s = (run, rest) -> all_digits run = true.
Proof.
  revert run rest. induction s as [|c s IH]; intros run rest; simpl.
  - by intros [= <- <-].
  - destruct (Py.is_digit c) eqn:Hc; [|by intros [= <- <-]].
    destruct (Re.span Py.is_digit s) as [run' rest'].
    intros [= <- <-]. apply all_digits_cons. split; [done|]. by eapply IH.
Qed.

Lemma osx_tail_digits s major minor arch :
  Re.osx_tail s = Some (major, minor, arch) ->
  (major ≠ EmptyString ∧ all_digits major = true)
  ∧ (minor ≠ EmptyString ∧ all_digits minor = true).
Proof.
  unfold Re.osx_tail. destruct s as [|c s1]; [done|].
  destruct (decide (c = "_"%char)) as [->|Hc].
  2:{ by destruct c as [[] [] [] [] [] [] [] []]. }
  destruct (Re.span Py.is_digit s1) as [[|m major'] rest1] eqn:Hmajor;
    [done|].
  destruct rest1 as [|c1 s2]; [done|].
  destruct (decide (c1 = "_"%char)) as [->|Hc1].
  2:{ by destruct c1 as [[] [] [] [] [] [] [] []]. }
  destruct (Re.span Py.is_digit s2) as [[|n minor'] rest2] eqn:Hminor;
    [done|].
  destruct rest2 as [|c2 s3]; [done|].
  destruct (decide (c2 = "_"%char)) as [->|Hc2].
  2:{ by destruct c2 as [[] [] [] [] [] [] [] []]. }
  destruct (Re.span _ s3) as [[|a arch'] rest3]; [done|].
  intros [= <- <- <-].
  apply span_digits in Hmajor. apply span_digits in Hminor. done.
Qed.

Lemma osx_arch_pat_match_digits s name major minor arch :
  Re.osx_arch_pat_match s = Some (name, major, minor, arch) ->
  (major ≠ EmptyString ∧ all_digits major = true)
  ∧ (minor ≠ EmptyString ∧ all_digits minor = true).
Proof.
  revert name. induction s as [|c s IH]; intros name; [done|]. simpl.
  destruct (Re.is_newline c); [done|].
  destruct (Re.osx_arch_pat_match s) as [[[[name' major'] minor'] arch']|].
  - intros [= <- <- <- <-]. by eapply IH.
  - destruct (Re.osx_tail s) as [[[major' minor'] arch']|] eqn:Htail;
      [|done].
    intros [= <- <- <- <-]. by eapply osx_tail_digits.
Qed.

Lemma mac_platforms_returns env arch :
  exists arches, value (_mac_platforms arch) env = Returns arches.
Proof.
  unfold _mac_platforms.
  destruct (Re.osx_arch_pat_match arch)
    as [[[[name major] minor] actual_arch]|] eqn:Hmatch; [|by eexists].
  apply osx_arch_pat_match_digits in Hmatch as [[? Hmajor] [? Hminor]].
  rewrite (int_digit_string major), (int_digit_string minor) by done.
  eexists. by value_step.
Qed.

Lemma get_custom_platforms_returns env arch platform :
  is_Some platform ∨ (exists p, value get_platform env = Returns p) ->
  exists arches,
    value (_get_custom_platforms arch platform) env = Returns arches.
Proof.
  intros Hknown.
  destruct (Py.partition "_" arch)
    as [[arch_prefix arch_sep] arch_suffix] eqn:Hpart.
  destruct (Py.startswith arch "macosx") eqn:Hmac.
  { destruct (mac_platforms_returns env arch) as [arches Harches].
    exists arches. unfold _get_custom_platforms. by rewrite Hpart, Hmac. }
  destruct (decide (arch_prefix ∈ ["manylinux2014"; "manylinux2010"]%string))
    as [Htier|Htier].
  { eexists. unfold _get_custom_platforms. rewrite Hpart, Hmac.
    by rewrite bool_decide_eq_true_2 by done. }
  destruct platform as [override|].
  { eexists. unfold _get_custom_platforms. rewrite Hpart, Hmac.
    by rewrite bool_decide_eq_false_2 by done. }
  destruct Hknown as [[? [=]]|[p Hplat]].
  destruct (get_custom_platforms_probed env arch p _ _ _ Hmac Hpart Htier
              Hplat) as (c2014 & c2010 & c1 & _ & _ & _ & ->).
  by eexists.
Qed.

Lemma all_minor_versions_returns version_info :
  version_info ≠ [] ->
  exists v vs,
    get_all_minor_versions_as_strings version_info = Returns (v :: vs).
Proof.
  intros Hne. unfold get_all_minor_versions_as_strings.
  destruct (last version_info) as [newest|] eqn:Hlast.
  - destruct newest; by eexists _, _.
  - by apply last_None in Hlast.
Qed.

Lemma impl_versions_return env :
  exists v vs,
    value (let! version_info := get_impl_version_info in
           lift (get_all_minor_versions_as_strings version_info)) env
    = Returns (v :: vs).
Proof.
  unfold get_impl_version_info. value_step.
  case_bool_decide; value_step; by apply all_minor_versions_returns.
Qed.

Lemma value_py_or_returns env x default :
  (exists d, value default env = Returns d) ->
  exists s, value (py_or x default) env = Returns s.
Proof.
  intros Hd. destruct x as [[|c s]|]; simpl; try done. by eexists.
Qed.

Lemma generic_tags_returns env version platform impl abi :
  (exists p, value get_platform env = Returns p) ->
  (exists a, value get_abi_tag env = Returns a) ->
  exists generic,
    value (_generic_tags version platform impl abi) env = Returns generic.
Proof.
  intros Hplat [a Habi]. unfold _generic_tags. rewrite value_bind.
  assert (Hversions : exists v vs,
    value match version with
          | Some v => ret [v]
          | None =>
              let! version_info := get_impl_version_info in
              lift (get_all_minor_versions_as_strings version_info)
          end env = Returns (v :: vs)).
  { destruct version; [by eexists _, _|apply impl_versions_return]. }
  destruct Hversions as (v & vs & ->). value_step.
  destruct (value_py_or_returns env impl (ask interpreter_name)) as [i ->];
    [by eexists|].
  rewrite value_bind.
  assert (Hresolved : exists a',
    value (if Py.truthy abi then ret abi else get_abi_tag) env = Returns a').
  { destruct (Py.truthy abi); by eexists. }
  destruct Hresolved as [a' ->]. rewrite value_bind.
  destruct (value_py_or_returns env platform get_platform Hplat)
    as [arch ->].
  rewrite value_bind.
  destruct (get_custom_platforms_returns env arch platform) as [arches ->];
    [by right|].
  eexists. by value_step.
Qed.

Lemma get_python_version_digits v :
  v ≠ EmptyString -> all_digits v = true ->
  exists parsed, _get_python_version v = Returns parsed.
Proof.
  destruct v as [|c rest]; [done|]. intros _ [Hc Hrest]%all_digits_cons.
  assert (Hmajor : Py.int (String c EmptyString) = Some (decimal_value
                                                          (String c "")))
    by (apply int_digit_string; [done|by apply all_digits_cons]).
  unfold _get_python_version. destruct rest as [|d rest].
  - cbn [String.length Nat.ltb Nat.leb]. rewrite Hmajor. by eexists.
  - cbn [String.length Nat.ltb Nat.leb]. rewrite Hmajor.
    rewrite (int_digit_string (String d rest)) by done. by eexists.
Qed.

(** [C5] as amended: get_supported returns a list, whatever platform,
    implementation and ABI are given, when the version is absent or a
    non-empty string of decimal digits, the macOS release (on darwin) has
    at least two dot-separated fields, and SOABI is not a non-zero number:
    an unreadable executable, a missing marker module, an unset
    configuration variable, a malformed platform string and an unknown
    interpreter family all lead to a result. *)
Theorem get_supported_returns `{Countable Tag} (lib : TagLib Tag) env
  version platform impl abi :
  version = None
  ∨ (exists v, version = Some v ∧ v ≠ EmptyString ∧ all_digits v = true) ->
  sys_platform env ≠ "darwin"%string
  ∨ (exists v0 v1 rest, Py.split "." (fst (mac_ver env)) = v0 :: v1 :: rest) ->
  (forall z, config_var env "SOABI" = Some (PInt z) -> z = 0) ->
  exists tags,
    value (get_supported lib version platform impl abi) env = Returns tags.
Proof.
  intros Hversion Hos Hsoabi.
  pose proof (get_platform_returns env Hos) as Hplat.
  pose proof (get_abi_tag_returns env Hsoabi) as Habi.
  unfold get_supported, get_supported_tags. rewrite !value_bind.
  assert (Hparsed : exists python_version,
    value match version with
          | Some v =>
              let! parsed := lift (_get_python_version v) in
              ret (Some parsed)
          | None => ret None
          end env = Returns python_version).
  { destruct Hversion as [->|(v & -> & Hne & Hdigits)]; [by eexists|].
    destruct (get_python_version_digits v Hne Hdigits) as [parsed Hparsed].
    value_step. rewrite Hparsed. by eexists. }
  destruct Hparsed as [python_version ->]. value_step.
  assert (Hinterpreter : exists interpreter,
    value (_get_custom_interpreter impl version) env = Returns interpreter).
  { unfold _get_custom_interpreter.
    destruct impl, version; value_step; by eexists. }
  destruct Hinterpreter as [interpreter ->]. value_step.
  assert (Hplatforms : exists platforms,
    value match platform with
          | Some p =>
              let! ps := _get_custom_platforms p platform in ret (Some ps)
          | None => ret None
          end env = Returns platforms).
  { destruct platform as [p|]; [|by eexists]. rewrite value_bind.
    destruct (get_custom_platforms_returns env p (Some p)) as [ps ->];
      [by left|].
    by eexists. }
  destruct Hplatforms as [platforms ->]. value_step.
  destruct (value_py_or_returns env impl (ask interpreter_name)) as [name ->];
    [by eexists|].
  value_step. case_bool_decide.
  - value_step. by eexists.
  - rewrite !value_bind.
    destruct (generic_tags_returns env version platform impl abi Hplat Habi)
      as [generic ->].
    value_step. by eexists.
Qed.

Lemma get_supported_returns_witness :
  exists tags,
    value (get_supported Samples.lib (Some "27"%string)
             (Some "not-a-platform"%string) (Some "zz"%string) None)
      Samples.linux_cp38 = Returns tags.
Proof.
  apply get_supported_returns.
  - right. exists "27"%string. by repeat split.
  - left. discriminate.
  - intros z. discriminate.
Defined.

(** A version that is empty, or not a number, makes the entry point
    raise. *)
Lemma get_supported_returns_counterexample :
  value (get_supported Samples.lib (Some ""%string) None None None)
    Samples.linux_cp38 = Raises IndexError
  ∧ value (get_supported Samples.lib (Some "py3"%string) None None None)
      Samples.linux_cp38 = Raises ValueError.
Proof. split; reflexivity. Qed.

(** * Further properties of the module *)

(** ** Version strings *)

Lemma append_cons (c : ascii) (a b : string) :
  String c a +:+ b = String c (a +:+ b).
Proof. reflexivity. Qed.

Lemma append_nil_r (s : string) : s +:+ "" = s.
Proof.
  induction s as [|c s IH]; [done|]. by rewrite append_cons, IH.
Qed.

Lemma append_assoc (a b c : string) : (a +:+ b) +:+ c = a +:+ b +:+ c.
Proof.
  induction a as [|x a IH]; [done|]. by rewrite !append_cons, IH.
Qed.

Lemma join_snoc (l : list string) (s : string) :
  Py.join (l ++ [s]) = Py.join l +:+ s.
Proof.
  induction l as [|x l IH]; simpl.
  - apply append_nil_r.
  - by rewrite IH, append_assoc.
Qed.

Lemma append_inj_r (p a b : string) : p +:+ a = p +:+ b -> a = b.
Proof.
  induction p as [|c p IH]; [done|]. rewrite !append_cons.
  intros [= ?]. auto.
Qed.

Lemma str_inj (n m : nat) : Py.str n = Py.str m -> n = m.
Proof.
  unfold Py.str. intros Heq. apply DecimalNat.Unsigned.to_uint_inj.
  assert (Hsome : Some (Nat.to_uint n) = Some (Nat.to_uint m))
    by (by rewrite <- !NilEmpty.usu, Heq).
  by injection Hsome.
Qed.

Lemma countdown_length n : length (Py.countdown n) = S n.
Proof. induction n as [|n IH]; simpl; [done|]. by rewrite IH. Qed.

Lemma countdown_lookup n i :
  (i <= n)%nat -> Py.countdown n !! i = Some (n - i)%nat.
Proof.
  revert i. induction n as [|n IH]; intros i Hi.
  - by replace i with O by lia.
  - destruct i as [|i]; [done|]. simpl. apply IH. lia.
Qed.

Lemma countdown_NoDup n : NoDup (Py.countdown n).
Proof.
  induction n as [|n IH]; simpl.
  - apply NoDup_singleton.
  - constructor; [|done]. intros Hin.
    apply list_elem_of_lookup in Hin as [i Hi].
    pose proof (lookup_lt_Some _ _ _ Hi) as Hlt.
    rewrite countdown_length in Hlt.
    rewrite countdown_lookup in Hi by lia. injection Hi. lia.
Qed.

(** [X1] For a version tuple whose last component is [minor], the
    supported versions are [minor + 1] distinct strings, the one at
    position [i] spelling the leading components followed by [minor - i]:
    the current version first, minor 0 last.  The empty tuple raises
    IndexError. *)
Theorem all_minor_versions_descending (major : list nat) (minor : nat) :
  get_all_minor_versions_as_strings [] = Raises IndexError
  ∧ exists versions,
      get_all_minor_versions_as_strings (major ++ [minor]) = Returns versions
      ∧ length versions = S minor
      ∧ NoDup versions
      ∧ forall i,
          (i <= minor)%nat ->
          versions !! i
          = Some (Py.join (List.map Py.str major) +:+ Py.str (minor - i)).
Proof.
  split; [done|].
  unfold get_all_minor_versions_as_strings.
  rewrite last_snoc, List.removelast_last. eexists. split; [done|].
  split; [|split].
  - by rewrite List.length_map, countdown_length.
  - assert (Hinj : Inj (=) (=)
               (fun minor => Py.join (List.map Py.str (major ++ [minor])))).
    { intros a b Hab. rewrite !List.map_app in Hab.
      cbn [List.map] in Hab. rewrite !join_snoc in Hab.
      by apply append_inj_r, str_inj in Hab. }
    change (List.map ?f ?l) with (f <$> l).
    apply (NoDup_fmap_2 _), countdown_NoDup.
  - intros i Hi.
    change (List.map ?f ?l) with (f <$> l).
    rewrite list_lookup_fmap, countdown_lookup by done.
    cbn [fmap option_fmap option_map]. f_equal.
    change (Py.str <$> major ++ [(minor - i)%nat])
      with (List.map Py.str (major ++ [(minor - i)%nat])).
    rewrite List.map_app. cbn [List.map]. apply join_snoc.
Qed.

Lemma all_minor_versions_descending_witness :
  exists versions,
    get_all_minor_versions_as_strings [3; 2]%nat = Returns versions
    ∧ versions !! 2%nat = Some "30"%string.
Proof.
  destruct (proj2 (all_minor_versions_descending [3%nat] 2))
    as (versions & Hversions & _ & _ & Hlookup).
  exists versions. split; [exact Hversions|].
  apply (Hlookup 2%nat). lia.
Defined.

Lemma uint_string_digits d : all_digits (NilEmpty.string_of_uint d) = true.
Proof.
  induction d; [done|..]; cbn [NilEmpty.string_of_uint];
    apply all_digits_cons; by split.
Qed.

Lemma uint_string_value d acc :
  fold_left (fun acc c => 10 * acc + Py.digit_val c)
    (list_ascii_of_string (NilEmpty.string_of_uint d)) (Z.of_nat acc)
  = Z.of_nat (Nat.of_uint_acc d acc).
Proof.
  revert acc. induction d; intros acc; [done|..];
    cbn [NilEmpty.string_of_uint list_ascii_of_string fold_left
         Nat.of_uint_acc];
    rewrite <- IHd; f_equal; rewrite Nat.tail_mul_spec;
    vm_compute (Py.digit_val _); lia.
Qed.

Lemma str_nonempty n : Py.str n ≠ EmptyString.
Proof.
  unfold Py.str. intros Hempty.
  pose proof (DecimalNat.Unsigned.of_to n) as Hn.
  destruct (Nat.to_uint n) eqn:Hd; try done.
  simpl in Hn. subst n. done.
Qed.

(** [int] reads back what [str] writes. *)
Lemma int_str n : Py.int (Py.str n) = Some (Z.of_nat n).
Proof.
  rewrite int_digit_string;
    [|apply str_nonempty|apply uint_string_digits].
  unfold decimal_value, Py.str. f_equal.
  etrans; [apply (uint_string_value (Nat.to_uint n) 0)|].
  f_equal. apply DecimalNat.Unsigned.of_to.
Qed.

Lemma get_python_version_major_digit version major rest :
  _get_python_version version = Returns (major :: rest) -> 0 <= major <= 9.
Proof.
  destruct version as [|c tail]; [done|]. unfold _get_python_version.
  destruct (Py.int (String c EmptyString)) as [m|] eqn:Hm.
  2:{ by destruct (1 <? String.length (String c tail))%nat. }
  apply int_one_char in Hm as [Hc ->].
  destruct (1 <? String.length (String c tail))%nat.
  - destruct (Py.int tail); [|done]. intros [= <- _].
    by apply digit_val_range.
  - intros [= <- _]. by apply digit_val_range.
Qed.

Lemma str_first_digit n :
  exists c tail,
    Py.str n = String c tail
    ∧ Py.is_digit c = true
    ∧ (tail = EmptyString -> Py.digit_val c = Z.of_nat n).
Proof.
  pose proof (str_nonempty n) as Hne.
  pose proof (uint_string_digits (Nat.to_uint n)) as Hdigits.
  pose proof (int_str n) as Hint.
  fold (Py.str n) in Hdigits.
  destruct (Py.str n) as [|c tail]; [done|].
  apply all_digits_cons in Hdigits as [Hc _].
  exists c, tail. repeat split; [done|]. intros ->.
  apply int_one_char in Hint as [_ ->]. done.
Qed.

(** [X2] Writing a version tuple without dots and parsing it back gives
    the first two components again exactly when the major version is a
    single digit. *)
Theorem version_nodot_round_trip (major minor : nat) (rest : list nat) :
  _get_python_version (version_info_to_nodot (major :: minor :: rest))
    = Returns [Z.of_nat major; Z.of_nat minor]
  <-> (major <= 9)%nat.
Proof.
  unfold version_info_to_nodot.
  cbn [List.firstn List.map Py.join List.fold_right].
  rewrite append_nil_r.
  destruct (str_first_digit major) as (c & tail & Hstr & Hc & Hval).
  split.
  - intros Hparsed. apply get_python_version_major_digit in Hparsed. lia.
  - intros Hmajor.
    assert (tail = EmptyString) as ->.
    { do 10 (destruct major as [|major];
             [by vm_compute in Hstr; injection Hstr as _ <-|]).
      lia. }
    rewrite Hstr, append_cons. change ("" +:+ Py.str minor) with (Py.str minor).
    pose proof (str_nonempty minor) as Hne.
    unfold _get_python_version.
    destruct (Py.str minor) as [|d more] eqn:Hminor; [done|].
    cbn [String.length Nat.ltb Nat.leb].
    rewrite <- Hstr, int_str, <- Hminor, int_str. done.
Qed.

Lemma version_nodot_round_trip_witness :
  _get_python_version (version_info_to_nodot [3; 11; 4]%nat)
  = Returns [3; 11].
Proof.
  apply (proj2 (version_nodot_round_trip 3 11 [4%nat])). lia.
Defined.

(** ** The platform string *)

Lemma chars_cons c s : chars (String c s) = c :: chars s.
Proof. reflexivity. Qed.

Lemma replace_removes old new s :
  old ≠ new -> old ∉ chars (Py.replace old new s).
Proof.
  intros Hne. induction s as [|c s IH]; cbn [Py.replace].
  - apply not_elem_of_nil.
  - rewrite chars_cons. apply not_elem_of_cons. split; [|done].
    destruct (Ascii.eqb_spec c old); congruence.
Qed.

Lemma replace_keeps_out c old new s :
  c ≠ new -> c ∉ chars s -> c ∉ chars (Py.replace old new s).
Proof.
  intros Hne. induction s as [|d s IH]; cbn [Py.replace]; [done|].
  rewrite !chars_cons, !not_elem_of_cons. intros [Hd Hs].
  split; [|by apply IH]. by destruct (Ascii.eqb d old).
Qed.

(** [X3] Off macOS the platform string is always returned, and it holds
    neither a dot nor a dash. *)
Theorem get_platform_normalised env :
  sys_platform env ≠ "darwin"%string ->
  exists p,
    value get_platform env = Returns p
    ∧ ("."%char ∉ chars p) ∧ ("-"%char ∉ chars p).
Proof.
  intros Hos. unfold get_platform. value_step.
  rewrite bool_decide_eq_false_2 by done. value_step.
  set (result := Py.replace "-" "_" (Py.replace "." "_" _)).
  assert (Hclean : ("."%char ∉ chars result) ∧ ("-"%char ∉ chars result)).
  { split.
    - apply replace_keeps_out; [done|]. by apply replace_removes.
    - by apply replace_removes. }
  case_bool_decide as Hlinux; [|by exists result].
  rewrite value_bind, value_is_running_32bit.
  case_bool_decide; value_step.
  - exists "linux_i686"%string. split; [done|].
    split; intros Hin;
      repeat (apply elem_of_cons in Hin as [?|Hin]; [done|]);
      by apply elem_of_nil in Hin.
  - by exists result.
Qed.

Lemma get_platform_normalised_witness :
  exists p,
    value get_platform Samples.linux_armhf = Returns p
    ∧ ("."%char ∉ chars p) ∧ ("-"%char ∉ chars p).
Proof. apply get_platform_normalised. discriminate. Defined.

Lemma split_head sep s w ws :
  Py.split sep s = w :: ws ->
  (sep ∉ chars w)
  ∧ ((ws = [] ∧ s = w)
     ∨ (exists s', s = w +:+ String sep s' ∧ Py.split sep s' = ws)).
Proof.
  revert w ws. induction s as [|c s IH]; intros w ws; cbn [Py.split].
  - intros [= <- <-]. split; [apply not_elem_of_nil|by left].
  - destruct (Ascii.eqb_spec c sep) as [->|Hc].
    + intros [= <- <-]. split; [apply not_elem_of_nil|].
      right. by exists s.
    + destruct (Py.split sep s) as [|w' ws'] eqn:Hsplit.
      { destruct (split_nonempty sep s) as (? & ? & ?). congruence. }
      intros [= <- <-].
      destruct (IH w' ws' eq_refl) as [Hw' Hshape].
      split; [rewrite chars_cons; by apply not_elem_of_cons|].
      destruct Hshape as [[-> ->]|(s' & -> & Hrest)]; [by left|].
      right. exists s'. by rewrite append_cons.
Qed.

Lemma split_without_separator sep s :
  sep ∉ chars s -> Py.split sep s = [s].
Proof.
  induction s as [|c s IH]; [done|].
  rewrite chars_cons, not_elem_of_cons. intros [Hc Hs]. cbn [Py.split].
  rewrite (IH Hs). destruct (Ascii.eqb_spec c sep); congruence.
Qed.

Lemma split_with_separator sep s :
  sep ∈ chars s -> exists v0 v1 rest, Py.split sep s = v0 :: v1 :: rest.
Proof.
  induction s as [|c s IH]; [by intros ?%elem_of_nil|].
  rewrite chars_cons, elem_of_cons. intros Hin. cbn [Py.split].
  destruct (Ascii.eqb_spec c sep) as [->|Hc].
  - destruct (split_nonempty sep s) as (w & ws & ->). by eexists _, _, _.
  - destruct Hin as [?|Hin]; [congruence|].
    destruct (IH Hin) as (v0 & v1 & rest & ->). by eexists _, _, _.
Qed.

(** [X4] On macOS the platform string is macosx_<v0>_<v1>_<machine>,
    where v0 and v1 are the first two dot-separated fields of the OS
    release and the machine is the reported one or its 32-bit name; when
    the release holds no dot at all, get_platform raises IndexError. *)
Theorem get_platform_darwin env release machine :
  sys_platform env = "darwin"%string ->
  mac_ver env = (release, machine) ->
  ("."%char ∈ chars release ->
   exists v0 v1 tail machine',
     value get_platform env
       = Returns ("macosx_" +:+ v0 +:+ "_" +:+ v1 +:+ "_" +:+ machine')
     ∧ release = v0 +:+ "." +:+ v1 +:+ tail
     ∧ ("."%char ∉ chars v0) ∧ ("."%char ∉ chars v1)
     ∧ (tail = EmptyString ∨ exists t, tail = String "." t)
     ∧ machine' ∈ [machine; "i386"; "ppc"]%string)
  ∧ ("."%char ∉ chars release ->
     value get_platform env = Raises IndexError).
Proof.
  intros Hos Hver.
  assert (Hrun : value get_platform env =
    match Py.split "." release with
    | v0 :: v1 :: _ =>
        Returns ("macosx_" +:+ v0 +:+ "_" +:+ v1 +:+ "_" +:+
          (if (bool_decide (machine = "x86_64"%string)
               && bool_decide (sys_maxsize env = 2147483647))%bool
           then "i386"%string
           else if (bool_decide (machine = "ppc64"%string)
                    && bool_decide (sys_maxsize env = 2147483647))%bool
           then "ppc"%string else machine))
    | _ => Raises IndexError
    end).
  { unfold get_platform. value_step.
    rewrite bool_decide_eq_true_2 by done. value_step.
    rewrite Hver. value_step. rewrite value_is_running_32bit.
    by destruct (Py.split "." release) as [|v0 [|v1 rest]]. }
  split.
  - intros Hdot.
    destruct (split_with_separator "." release Hdot)
      as (v0 & v1 & rest & Hsplit).
    rewrite Hsplit in Hrun.
    apply split_head in Hsplit as [Hv0 [[? _]|(s' & -> & Hsplit)]]; [done|].
    apply split_head in Hsplit as [Hv1 Hshape].
    assert (Hmachine :
      (if (bool_decide (machine = "x86_64"%string)
           && bool_decide (sys_maxsize env = 2147483647))%bool
       then "i386"%string
       else if (bool_decide (machine = "ppc64"%string)
                && bool_decide (sys_maxsize env = 2147483647))%bool
       then "ppc"%string else machine)
      ∈ [machine; "i386"; "ppc"]%string).
    { destruct (_ && _)%bool; [repeat constructor|].
      destruct (_ && _)%bool; repeat constructor. }
    destruct Hshape as [[_ ->]|(s'' & -> & _)].
    + exists v0, v1, EmptyString. eexists. split; [exact Hrun|].
      rewrite append_nil_r. repeat split; try done. by left.
    + exists v0, v1, (String "." s''). eexists. split; [exact Hrun|].
      repeat split; try done. right. by eexists.
  - intros Hdot. rewrite Hrun.
    by rewrite (split_without_separator "." release Hdot).
Qed.

Lemma get_platform_darwin_witness :
  value get_platform (Samples.darwin "11" "arm64" 9223372036854775807)
  = Raises IndexError.
Proof.
  apply (proj2 (get_platform_darwin
                  (Samples.darwin "11" "arm64" 9223372036854775807)
                  "11"%string "arm64"%string eq_refl eq_refl)).
  intros Hin. repeat (apply elem_of_cons in Hin as [?|Hin]; [done|]).
  by apply elem_of_nil in Hin.
Defined.

(** ** What the probes query *)

Lemma trace_ret {A} (a : A) env : trace (ret a) env = [].
Proof. done. Qed.

Lemma trace_raise {A} e env : trace (@raise A e) env = [].
Proof. done. Qed.

Lemma trace_ask {A} (f : Env -> A) env : trace (ask f) env = [].
Proof. done. Qed.

Lemma trace_lift {A} (o : outcome A) env : trace (lift o) env = [].
Proof. done. Qed.

Lemma trace_emit ev env : trace (emit ev) env = [ev].
Proof. done. Qed.

(** Rewriting the queries of a computation down to its steps. *)
Ltac trace_step :=
  repeat (progress
            (rewrite ?trace_bind, ?trace_ret, ?trace_raise, ?trace_ask,
               ?trace_lift, ?trace_emit, ?value_bind, ?value_ret, ?value_ask,
               ?value_emit, ?value_raise, ?value_lift;
             cbv beta iota)).

Lemma trace_get_platform env : trace get_platform env = [EvPlatform].
Proof.
  unfold get_platform, _is_running_32bit. trace_step.
  case_bool_decide; trace_step.
  - destruct (mac_ver env) as [release machine]. trace_step.
    by destruct (Py.split "." release) as [|v0 [|v1 rest]].
  - case_bool_decide; trace_step; [|done]. by case_bool_decide.
Qed.

Lemma trace_is_linux_armhf env p :
  value get_platform env = Returns p ->
  trace is_linux_armhf env
  = EvPlatform
      :: (if bool_decide (p = "linux_armv7l"%string)
          then [EvOpenExecutable] else []).
Proof.
  intros Hplat. unfold is_linux_armhf.
  rewrite trace_bind, trace_get_platform, Hplat.
  case_bool_decide; cbn [negb]; [|done]. trace_step.
  destruct (executable_image env) as [bytes|]; [|done].
  destruct (length (List.firstn 40 bytes) <? 40)%nat; [done|].
  by destruct (Py.slice 37 38 _).
Qed.

(** [X5] The hard-float probe asks for the platform once and opens the
    running executable only on linux_armv7l, and then once. *)
Theorem is_linux_armhf_queries env p :
  value get_platform env = Returns p ->
  (p = "linux_armv7l"%string ->
   trace is_linux_armhf env = [EvPlatform; EvOpenExecutable])
  ∧ (p ≠ "linux_armv7l"%string -> trace is_linux_armhf env = [EvPlatform]).
Proof.
  intros Hplat. rewrite (trace_is_linux_armhf env p Hplat).
  split; intros Hp.
  - by rewrite bool_decide_eq_true_2.
  - by rewrite bool_decide_eq_false_2.
Qed.

Lemma is_linux_armhf_queries_witness :
  trace is_linux_armhf Samples.linux_armhf = [EvPlatform; EvOpenExecutable]
  ∧ trace is_linux_armhf Samples.linux_cp38 = [EvPlatform].
Proof.
  split.
  - by apply (proj1 (is_linux_armhf_queries Samples.linux_armhf
                       "linux_armv7l"%string eq_refl)).
  - by apply (proj2 (is_linux_armhf_queries Samples.linux_cp38
                       "linux_x86_64"%string eq_refl)).
Defined.

Lemma trace_marker_then_glibc env attr major minor :
  trace (let! marker := manylinux_marker attr in
         match marker with
         | Some b => ret b
         | None => glibc_check major minor
         end) env
  = EvImportManylinux
      :: match manylinux env ≫= attr with
         | Some _ => []
         | None => [EvGlibc major minor]
         end.
Proof.
  unfold manylinux_marker, glibc_check. trace_step.
  destruct (manylinux env ≫= attr); by trace_step.
Qed.

Lemma trace_is_manylinux1 env p :
  value get_platform env = Returns p ->
  trace is_manylinux1_compatible env
  = EvPlatform
      :: (if bool_decide (p ∈ ["linux_x86_64"; "linux_i686"]%string)
          then EvImportManylinux
                 :: match manylinux env ≫= manylinux1_compatible with
                    | Some _ => []
                    | None => [EvGlibc 2 5]
                    end
          else []).
Proof.
  intros Hplat. unfold is_manylinux1_compatible.
  rewrite trace_bind, trace_get_platform, Hplat.
  case_bool_decide; cbn [negb]; [|done].
  by rewrite trace_marker_then_glibc.
Qed.

Lemma trace_is_manylinux2010 env p :
  value get_platform env = Returns p ->
  trace is_manylinux2010_compatible env
  = EvPlatform
      :: (if bool_decide (p ∈ ["linux_x86_64"; "linux_i686"]%string)
          then EvImportManylinux
                 :: match manylinux env ≫= manylinux2010_compatible with
                    | Some _ => []
                    | None => [EvGlibc 2 12]
                    end
          else []).
Proof.
  intros Hplat. unfold is_manylinux2010_compatible.
  rewrite trace_bind, trace_get_platform, Hplat.
  case_bool_decide; cbn [negb]; [|done].
  by rewrite trace_marker_then_glibc.
Qed.

Lemma trace_is_manylinux2014 env p :
  value get_platform env = Returns p ->
  exists probe stage,
    trace is_manylinux2014_compatible env = EvPlatform :: probe ++ stage
    ∧ (probe = [] ∨ probe = [EvPlatform]
       ∨ probe = [EvPlatform; EvOpenExecutable])
    ∧ (stage = []
       ∨ (p ∈ ["linux_x86_64"; "linux_i686"; "linux_aarch64";
               "linux_armv7l"; "linux_ppc64"; "linux_ppc64le";
               "linux_s390x"]%string
          ∧ stage
            = EvImportManylinux
                :: match manylinux env ≫= manylinux2014_compatible with
                   | Some _ => []
                   | None => [EvGlibc 2 17]
                   end))
    ∧ (p ∉ ["linux_x86_64"; "linux_i686"; "linux_aarch64";
            "linux_armv7l"; "linux_ppc64"; "linux_ppc64le";
            "linux_s390x"]%string -> probe = [] ∧ stage = []).
Proof.
  intros Hplat. unfold is_manylinux2014_compatible.
  rewrite trace_bind, trace_get_platform, Hplat.
  case_bool_decide as Hallowed; cbn [negb].
  2:{ exists [], []. rewrite trace_ret.
      split; [reflexivity|]. split; [auto|]. split; [by left|done]. }
  rewrite trace_bind. case_bool_decide as Harm.
  - rewrite (trace_is_linux_armhf env p Hplat).
    rewrite bool_decide_eq_true_2 by done.
    destruct (is_linux_armhf_returns env p Hplat) as [[] ->]; cbn [negb].
    + rewrite trace_marker_then_glibc.
      exists [EvPlatform; EvOpenExecutable]. eexists.
      split; [reflexivity|]. split; [auto|]. split; [by right|done].
    + rewrite trace_ret. exists [EvPlatform; EvOpenExecutable], [].
      split; [reflexivity|]. split; [auto|]. split; [by left|done].
  - rewrite trace_ret, value_ret. cbn [negb].
    rewrite trace_marker_then_glibc.
    exists []. eexists.
    split; [reflexivity|]. split; [auto|]. split; [by right|done].
Qed.

(** [X6] Each tier predicate asks for the glibc version only with the
    floor of its own tier, only on a platform of its allow-list and only
    when the marker of the tier is absent: a present marker is
    authoritative.  Off the allow-list the predicate queries the platform
    and nothing else. *)
Theorem manylinux_glibc_discipline env p :
  value get_platform env = Returns p ->
  (forall ev,
     ev ∈ trace is_manylinux1_compatible env -> is_glibc_check ev = true ->
     ev = EvGlibc 2 5
     ∧ manylinux env ≫= manylinux1_compatible = None
     ∧ p ∈ ["linux_x86_64"; "linux_i686"]%string)
  ∧ (forall ev,
       ev ∈ trace is_manylinux2010_compatible env ->
       is_glibc_check ev = true ->
       ev = EvGlibc 2 12
       ∧ manylinux env ≫= manylinux2010_compatible = None
       ∧ p ∈ ["linux_x86_64"; "linux_i686"]%string)
  ∧ (forall ev,
       ev ∈ trace is_manylinux2014_compatible env ->
       is_glibc_check ev = true ->
       ev = EvGlibc 2 17
       ∧ manylinux env ≫= manylinux2014_compatible = None
       ∧ p ∈ ["linux_x86_64"; "linux_i686"; "linux_aarch64";
              "linux_armv7l"; "linux_ppc64"; "linux_ppc64le";
              "linux_s390x"]%string)
  ∧ (p ∉ ["linux_x86_64"; "linux_i686"]%string ->
     trace is_manylinux1_compatible env = [EvPlatform]
     ∧ trace is_manylinux2010_compatible env = [EvPlatform])
  ∧ (p ∉ ["linux_x86_64"; "linux_i686"; "linux_aarch64";
          "linux_armv7l"; "linux_ppc64"; "linux_ppc64le";
          "linux_s390x"]%string ->
     trace is_manylinux2014_compatible env = [EvPlatform]).
Proof.
  intros Hplat.
  rewrite (trace_is_manylinux1 env p Hplat).
  rewrite (trace_is_manylinux2010 env p Hplat).
  destruct (trace_is_manylinux2014 env p Hplat)
    as (probe & stage & -> & Hprobe & Hstage & Hoff).
  split; [|split; [|split; [|split]]].
  - intros ev Hin Hglibc. case_bool_decide as Hallowed.
    + destruct (manylinux env ≫= manylinux1_compatible);
        repeat (apply elem_of_cons in Hin as [->|Hin]; [done|]);
        by apply elem_of_nil in Hin.
    + repeat (apply elem_of_cons in Hin as [->|Hin]; [done|]).
      by apply elem_of_nil in Hin.
  - intros ev Hin Hglibc. case_bool_decide as Hallowed.
    + destruct (manylinux env ≫= manylinux2010_compatible);
        repeat (apply elem_of_cons in Hin as [->|Hin]; [done|]);
        by apply elem_of_nil in Hin.
    + repeat (apply elem_of_cons in Hin as [->|Hin]; [done|]).
      by apply elem_of_nil in Hin.
  - intros ev Hin Hglibc.
    apply elem_of_cons in Hin as [->|Hin]; [done|].
    apply elem_of_app in Hin as [Hin|Hin].
    + destruct Hprobe as [->|[->| ->]];
        repeat (apply elem_of_cons in Hin as [->|Hin]; [done|]);
        by apply elem_of_nil in Hin.
    + destruct Hstage as [->|[Hallowed ->]];
        [by apply elem_of_nil in Hin|].
      destruct (manylinux env ≫= manylinux2014_compatible);
        repeat (apply elem_of_cons in Hin as [->|Hin]; [done|]);
        by apply elem_of_nil in Hin.
  - intros Hoff1. by rewrite !bool_decide_eq_false_2 by done.
  - intros Hoff2014. by destruct (Hoff Hoff2014) as [-> ->].
Qed.

Lemma manylinux_glibc_discipline_witness :
  trace is_manylinux1_compatible Samples.linux_armhf = [EvPlatform]
  ∧ trace is_manylinux2010_compatible Samples.linux_armhf = [EvPlatform].
Proof.
  apply (proj1 (proj2 (proj2 (proj2
           (manylinux_glibc_discipline Samples.linux_armhf
              "linux_armv7l"%string eq_refl))))).
  intros Hin. repeat (apply elem_of_cons in Hin as [?|Hin]; [done|]).
  by apply elem_of_nil in Hin.
Defined.

(** ** Expansion of the detected platform *)

Lemma is_manylinux1_off_list env p :
  value get_platform env = Returns p ->
  p ∉ ["linux_x86_64"; "linux_i686"]%string ->
  value is_manylinux1_compatible env = Returns false.
Proof.
  intros Hplat Hoff. unfold is_manylinux1_compatible.
  rewrite value_bind, Hplat. by rewrite bool_decide_eq_false_2 by done.
Qed.

Lemma is_manylinux2010_off_list env p :
  value get_platform env = Returns p ->
  p ∉ ["linux_x86_64"; "linux_i686"]%string ->
  value is_manylinux2010_compatible env = Returns false.
Proof.
  intros Hplat Hoff. unfold is_manylinux2010_compatible.
  rewrite value_bind, Hplat. by rewrite bool_decide_eq_false_2 by done.
Qed.

Lemma is_manylinux2014_off_list env p :
  value get_platform env = Returns p ->
  p ∉ ["linux_x86_64"; "linux_i686"; "linux_aarch64"; "linux_armv7l";
       "linux_ppc64"; "linux_ppc64le"; "linux_s390x"]%string ->
  value is_manylinux2014_compatible env = Returns false.
Proof.
  intros Hplat Hoff. unfold is_manylinux2014_compatible.
  rewrite value_bind, Hplat. by rewrite bool_decide_eq_false_2 by done.
Qed.

(** [X7] Expanding the detected platform without an override: a platform
    other than linux_x86_64 and linux_i686 never gets a manylinux2010 or
    manylinux1 entry, and a platform outside the allow-list of tier 2014
    (a non-Linux platform, say) is not expanded at all. *)
Theorem expansion_of_detected_platform env p arch_prefix arch_sep arch_suffix :
  value get_platform env = Returns p ->
  Py.startswith p "macosx" = false ->
  Py.partition "_" p = (arch_prefix, arch_sep, arch_suffix) ->
  arch_prefix ∉ ["manylinux2014"; "manylinux2010"]%string ->
  (p ∉ ["linux_x86_64"; "linux_i686"]%string ->
   exists arches,
     value (_get_custom_platforms p None) env = Returns arches
     ∧ (arches = [p]
        ∨ arches = ["manylinux2014" +:+ arch_sep +:+ arch_suffix; p]))
  ∧ (p ∉ ["linux_x86_64"; "linux_i686"; "linux_aarch64"; "linux_armv7l";
          "linux_ppc64"; "linux_ppc64le"; "linux_s390x"]%string ->
     value (_get_custom_platforms p None) env = Returns [p]).
Proof.
  intros Hplat Hmac Hpart Hprefix.
  destruct (get_custom_platforms_probed env p p _ _ _ Hmac Hpart Hprefix
              Hplat) as (c2014 & c2010 & c1 & H2014 & H2010 & H1 & ->).
  split.
  - intros Hoff.
    rewrite (is_manylinux2010_off_list env p Hplat Hoff) in H2010.
    rewrite (is_manylinux1_off_list env p Hplat Hoff) in H1.
    injection H2010 as <-. injection H1 as <-.
    eexists. split; [done|]. destruct c2014; [by right|by left].
  - intros Hoff.
    assert (Hoff1 : p ∉ ["linux_x86_64"; "linux_i686"]%string).
    { intros Hin. apply Hoff.
      apply elem_of_cons in Hin as [->|Hin]; [repeat constructor|].
      apply elem_of_cons in Hin as [->|Hin]; [repeat constructor|].
      by apply elem_of_nil in Hin. }
    rewrite (is_manylinux2014_off_list env p Hplat Hoff) in H2014.
    rewrite (is_manylinux2010_off_list env p Hplat Hoff1) in H2010.
    rewrite (is_manylinux1_off_list env p Hplat Hoff1) in H1.
    injection H2014 as <-. injection H2010 as <-. by injection H1 as <-.
Qed.

(** A string that is not in a list of given strings. *)
Ltac not_in_list :=
  let Hin := fresh "Hin" in
  intros Hin;
  repeat (apply elem_of_cons in Hin as [?|Hin]; [done|]);
  by apply elem_of_nil in Hin.

Lemma expansion_of_detected_platform_witness :
  exists arches,
    value (_get_custom_platforms "linux_armv7l" None) Samples.linux_armhf
      = Returns arches
    ∧ (arches = ["linux_armv7l"%string]
       ∨ arches = ["manylinux2014_armv7l"; "linux_armv7l"]%string).
Proof.
  assert (Hprefix :
    "linux"%string ∉ ["manylinux2014"; "manylinux2010"]%string)
    by not_in_list.
  apply (proj1 (expansion_of_detected_platform Samples.linux_armhf
                  "linux_armv7l" "linux" "_" "armv7l" eq_refl eq_refl
                  eq_refl Hprefix)).
  not_in_list.
Defined.

(** ** Expansion of named tiers is closed *)

Lemma partition_separator c s p sep suffix :
  Py.partition c s = (p, sep, suffix) ->
  (sep = String c EmptyString ∧ s = p +:+ String c suffix)
  ∨ (sep = EmptyString ∧ suffix = EmptyString ∧ s = p).
Proof.
  revert p. induction s as [|d s IH]; intros p; cbn [Py.partition].
  - intros [= <- <- <-]. by right.
  - destruct (Ascii.eqb_spec d c) as [->|Hd].
    + intros [= <- <- <-]. by left.
    + destruct (Py.partition c s) as [[p' sep'] suffix'].
      intros [= <- <- <-].
      destruct (IH p' eq_refl) as [[-> ->]|(-> & -> & ->)];
        [by left|by right].
Qed.

Lemma custom_manylinux_unfold arch arch_prefix arch_sep arch_suffix :
  Py.partition "_" arch = (arch_prefix, arch_sep, arch_suffix) ->
  _custom_manylinux_platforms arch
  = if bool_decide (arch_prefix = "manylinux2014"%string) then
      if bool_decide (arch_suffix ∈ ["i686"; "x86_64"]%string) then
        [arch; "manylinux2010" +:+ arch_sep +:+ arch_suffix;
         "manylinux1" +:+ arch_sep +:+ arch_suffix]
      else [arch]
    else if bool_decide (arch_prefix = "manylinux2010"%string) then
      [arch; "manylinux1" +:+ arch_sep +:+ arch_suffix]
    else [arch].
Proof. intros Hpart. unfold _custom_manylinux_platforms. by rewrite Hpart. Qed.

Lemma custom_manylinux_1 a :
  _custom_manylinux_platforms ("manylinux1_" +:+ a) = ["manylinux1_" +:+ a].
Proof. reflexivity. Qed.

(** [X8] The expansion of a named tier is closed: expanding any entry of
    an expansion again yields only entries of that expansion, so
    compatibility with older tiers is transitive. *)
Theorem custom_manylinux_closed arch entry older :
  entry ∈ _custom_manylinux_platforms arch ->
  older ∈ _custom_manylinux_platforms entry ->
  older ∈ _custom_manylinux_platforms arch.
Proof.
  destruct (Py.partition "_" arch)
    as [[arch_prefix arch_sep] arch_suffix] eqn:Hpart.
  rewrite (custom_manylinux_unfold arch _ _ _ Hpart).
  apply partition_separator in Hpart as Hshape.
  case_bool_decide as H2014; [case_bool_decide as Hsuffix|
                              case_bool_decide as H2010].
  - destruct Hshape as [[-> ->]|(-> & -> & ->)].
    2:{ exfalso. revert Hsuffix. not_in_list. }
    subst arch_prefix. intros Hentry.
    apply elem_of_cons in Hentry as [->|Hentry].
    { change ("manylinux2014" +:+ String "_" arch_suffix)
        with ("manylinux2014_" +:+ arch_suffix).
      rewrite custom_manylinux_2014, bool_decide_eq_true_2 by done.
      done. }
    apply elem_of_cons in Hentry as [->|Hentry].
    { change ("manylinux2010" +:+ "_" +:+ arch_suffix)
        with ("manylinux2010_" +:+ arch_suffix).
      rewrite custom_manylinux_2010. intros Holder.
      by apply list_elem_of_further. }
    apply elem_of_cons in Hentry as [->|Hentry];
      [|by apply elem_of_nil in Hentry].
    change ("manylinux1" +:+ "_" +:+ arch_suffix)
      with ("manylinux1_" +:+ arch_suffix).
    rewrite custom_manylinux_1. intros Holder.
    by do 2 apply list_elem_of_further.
  - intros Hentry. apply elem_of_cons in Hentry as [->|Hentry];
      [|by apply elem_of_nil in Hentry].
    rewrite (custom_manylinux_unfold arch _ _ _ Hpart).
    by rewrite (bool_decide_eq_true_2 _ H2014), bool_decide_eq_false_2.
  - intros Hentry. apply elem_of_cons in Hentry as [->|Hentry].
    { rewrite (custom_manylinux_unfold arch _ _ _ Hpart).
      by rewrite (bool_decide_eq_false_2 _ H2014),
        (bool_decide_eq_true_2 _ H2010). }
    apply elem_of_cons in Hentry as [->|Hentry];
      [|by apply elem_of_nil in Hentry].
    destruct Hshape as [[-> ->]|(-> & -> & ->)].
    + change ("manylinux1" +:+ "_" +:+ arch_suffix)
        with ("manylinux1_" +:+ arch_suffix).
      rewrite custom_manylinux_1. intros Holder.
      by apply list_elem_of_further.
    + intros Holder. by apply list_elem_of_further.
  - intros Hentry. apply elem_of_cons in Hentry as [->|Hentry];
      [|by apply elem_of_nil in Hentry].
    rewrite (custom_manylinux_unfold arch _ _ _ Hpart).
    by rewrite (bool_decide_eq_false_2 _ H2014),
      (bool_decide_eq_false_2 _ H2010).
Qed.

Lemma custom_manylinux_closed_witness :
  "manylinux1_i686"%string
  ∈ _custom_manylinux_platforms "manylinux2014_i686".
Proof.
  apply (custom_manylinux_closed "manylinux2014_i686" "manylinux2010_i686").
  - apply list_elem_of_further, list_elem_of_here.
  - apply list_elem_of_further, list_elem_of_here.
Defined.

(** ** De-duplication and concatenation *)

Section StableUniqueLaws.

Context `{Countable Tag}.
Implicit Types (tags : list Tag) (observed : gset Tag).

Lemma stable_unique_from_fresh observed tags :
  NoDup tags -> (forall t, t ∈ tags -> t ∉ observed) ->
  _stable_unique_tags_from observed tags = tags.
Proof.
  revert observed. induction tags as [|x tags IH]; intros observed; [done|].
  intros [Hx Hnodup]%NoDup_cons Hfresh. simpl.
  rewrite decide_False by (apply Hfresh; constructor).
  f_equal. apply IH; [done|]. intros t Ht.
  rewrite elem_of_union, elem_of_singleton. intros [->|Hobs]; [done|].
  by apply (Hfresh t); [constructor|].
Qed.

Lemma stable_unique_from_union (seen observed : gset Tag) tags :
  _stable_unique_tags_from (seen ∪ observed) tags
  = filter (fun t => t ∉ seen) (_stable_unique_tags_from observed tags).
Proof.
  revert seen observed. induction tags as [|x tags IH];
    intros seen observed; [done|]. simpl.
  destruct (decide (x ∈ observed)) as [Hobs|Hobs].
  - rewrite decide_True by set_solver. apply IH.
  - destruct (decide (x ∈ seen)) as [Hseen|Hseen].
    + rewrite decide_True by set_solver.
      rewrite filter_cons_False by (by intros ?).
      rewrite <- IH. f_equal. set_solver.
    + rewrite decide_False by set_solver.
      rewrite filter_cons_True by done. f_equal.
      rewrite <- IH. f_equal. set_solver.
Qed.

Lemma stable_unique_from_app observed (first : list Tag) tags :
  _stable_unique_tags_from observed (first ++ tags)
  = _stable_unique_tags_from observed first
      ++ _stable_unique_tags_from (list_to_set first ∪ observed) tags.
Proof.
  revert observed. induction first as [|x first IH]; intros observed; simpl.
  - f_equal. set_solver.
  - destruct (decide (x ∈ observed)) as [Hobs|Hobs].
    + rewrite IH. do 2 f_equal. set_solver.
    + simpl. rewrite IH. do 3 f_equal. set_solver.
Qed.

(** [X9] De-duplication leaves a list without duplicates as it is, and so
    applying it twice is the same as applying it once. *)
Theorem stable_unique_idempotent tags :
  (NoDup tags -> _stable_unique_tags tags = tags)
  ∧ _stable_unique_tags (_stable_unique_tags tags) = _stable_unique_tags tags.
Proof.
  assert (Hfixed : forall l : list Tag,
            NoDup l -> _stable_unique_tags l = l).
  { intros l Hl. apply stable_unique_from_fresh; [done|]. set_solver. }
  split; [apply Hfixed|]. apply Hfixed, stable_unique_from_NoDup.
Qed.

(** [X10] De-duplicating a concatenation keeps the de-duplicated first
    list in front, followed by the de-duplicated second list without the
    tags of the first: the tags of the first generator keep their rank. *)
Theorem stable_unique_app (first second : list Tag) :
  _stable_unique_tags (first ++ second)
  = _stable_unique_tags first
      ++ filter (fun t => t ∉ first) (_stable_unique_tags second).
Proof.
  unfold _stable_unique_tags. rewrite stable_unique_from_app. f_equal.
  rewrite stable_unique_from_union.
  apply list_filter_iff. intros t. by rewrite elem_of_list_to_set.
Qed.

End StableUniqueLaws.

Lemma stable_unique_idempotent_witness :
  _stable_unique_tags [3; 1; 2]%nat = [3; 1; 2]%nat.
Proof.
  apply (proj1 (stable_unique_idempotent [3; 1; 2]%nat)).
  repeat (constructor; [not_in_list|]). constructor.
Defined.

(** ** The reference implementation is left to its generator *)

Lemma trace_bind_nil {A B} (m : M A) (k : A -> M B) env :
  trace m env = [] ->
  (forall a, value m env = Returns a -> trace (k a) env = []) ->
  trace (bind m k) env = [].
Proof.
  intros Hm Hk. rewrite trace_bind, Hm.
  destruct (value m env) as [a|e]; [by apply Hk|done].
Qed.

Lemma trace_mac_platforms env arch : trace (_mac_platforms arch) env = [].
Proof.
  unfold _mac_platforms.
  destruct (Re.osx_arch_pat_match arch)
    as [[[[name major] minor] actual_arch]|]; [|done].
  repeat (apply trace_bind_nil; [done|intros ? _]). done.
Qed.

(** With an override the expansion asks nothing of the environment. *)
Lemma trace_get_custom_platforms_override env arch p :
  trace (_get_custom_platforms arch (Some p)) env = [].
Proof.
  unfold _get_custom_platforms.
  destruct (Py.partition "_" arch) as [[arch_prefix arch_sep] arch_suffix].
  destruct (Py.startswith arch "macosx"); [apply trace_mac_platforms|].
  by case_bool_decide.
Qed.

Lemma trace_py_or_ask env x (f : Env -> string) :
  trace (py_or x (ask f)) env = [].
Proof. by destruct x as [[|c s]|]. Qed.

Section Silent.

Context `{Countable Tag} (lib : TagLib Tag).

(** [X11] When the effective implementation is cp, get_supported makes
    no query of its own, whatever the other arguments are and whether it
    returns or raises: no platform detection, no configuration variable,
    no marker import, no glibc check, no read of the executable. *)
Theorem get_supported_cpython_silent env version platform impl abi :
  value (py_or impl (ask interpreter_name)) env = Returns "cp"%string ->
  trace (get_supported lib version platform impl abi) env = [].
Proof.
  intros Hcp. unfold get_supported, get_supported_tags.
  apply trace_bind_nil; [|done].
  apply trace_bind_nil.
  { destruct version; [|done]. by apply trace_bind_nil. }
  intros python_version _. apply trace_bind_nil.
  { unfold _get_custom_interpreter.
    apply trace_bind_nil; [by destruct impl|intros ? _].
    apply trace_bind_nil; [by destruct version|done]. }
  intros interpreter _. apply trace_bind_nil.
  { destruct platform as [p|]; [|done].
    apply trace_bind_nil; [apply trace_get_custom_platforms_override|done]. }
  intros platforms _. apply trace_bind_nil; [apply trace_py_or_ask|].
  intros name Hname. rewrite Hcp in Hname. injection Hname as <-.
  rewrite bool_decide_eq_true_2 by done.
  by apply trace_bind_nil.
Qed.

End Silent.

Lemma get_supported_cpython_silent_witness :
  trace (get_supported Samples.lib None (Some "macosx_10_9_x86_64"%string)
           None None) Samples.linux_cp38 = [].
Proof. by apply get_supported_cpython_silent. Defined.

(** ** The resolved ABI tag *)

Lemma replace_length old new s :
  String.length (Py.replace old new s) = String.length s.
Proof. induction s as [|c s IH]; cbn [Py.replace String.length]; auto. Qed.

Lemma value_get_abi_tag_soabi env soabi :
  config_var env "SOABI" = Some (PStr soabi) ->
  soabi ≠ EmptyString ->
  value get_abi_tag env
  = if Py.startswith soabi "cpython-" then
      match Py.split "-" soabi with
      | _ :: field :: _ => Returns (Some ("cp" +:+ field))
      | _ => Raises IndexError
      end
    else Returns (Some (Py.replace "-" "_" (Py.replace "." "_" soabi))).
Proof.
  intros Hsoabi Hne. unfold get_abi_tag, get_config_var. value_step.
  rewrite Hsoabi. cbn [pyval_truthy negb andb].
  rewrite bool_decide_eq_false_2 by done. cbn [negb andb].
  destruct (Py.startswith soabi "cpython-"); [|done].
  by destruct (Py.split "-" soabi) as [|? [|? ?]].
Qed.

(** [X12] A resolved ABI tag is never the empty string: get_abi_tag
    returns either no tag or a non-empty one. *)
Theorem get_abi_tag_nonempty env abi :
  value get_abi_tag env = Returns (Some abi) -> abi ≠ EmptyString.
Proof.
  destruct (pyval_truthy (config_var env "SOABI")) eqn:Htruthy.
  - destruct (config_var env "SOABI") as [[z|soabi]|] eqn:Hsoabi; [| |done].
    + unfold get_abi_tag, get_config_var. value_step.
      rewrite Hsoabi, Htruthy. by cbn [negb andb].
    + assert (Hne : soabi ≠ EmptyString) by (by destruct soabi).
      rewrite (value_get_abi_tag_soabi env soabi Hsoabi Hne).
      destruct (Py.startswith soabi "cpython-").
      * destruct (Py.split "-" soabi) as [|? [|field ?]]; try done.
        by intros [= <-].
      * intros [= <-]. destruct soabi as [|c soabi]; [done|].
        by cbn [Py.replace].
  - destruct (decide (interpreter_name env ∈ ["cp"; "pp"]%string))
      as [Hname|Hname];
      [destruct (sys_maxunicode env) as [maxunicode|] eqn:Hmax|].
    + rewrite (get_abi_tag_synthesized env maxunicode Htruthy Hname Hmax).
      intros [= <-].
      apply elem_of_cons in Hname as [->|Hname]; [done|].
      apply elem_of_cons in Hname as [->|Hname]; [done|].
      by apply elem_of_nil in Hname.
    + unfold get_abi_tag, get_config_var. value_step.
      rewrite Htruthy, Hmax. rewrite (bool_decide_eq_false_2 (is_Some _)).
      * by rewrite andb_false_r.
      * by intros [? ?].
    + unfold get_abi_tag, get_config_var. value_step.
      rewrite Htruthy. by rewrite (bool_decide_eq_false_2 (_ ∈ _)) by done.
Qed.

Lemma get_abi_tag_nonempty_witness : "cp38"%string ≠ EmptyString.
Proof.
  apply (get_abi_tag_nonempty Samples.linux_cp38 "cp38"). reflexivity.
Defined.

(** [X13] A non-empty SOABI that does not start with cpython- resolves
    to an ABI tag of the same length with no dot and no dash in it. *)
Theorem get_abi_tag_normalised env soabi :
  config_var env "SOABI" = Some (PStr soabi) ->
  soabi ≠ EmptyString ->
  Py.startswith soabi "cpython-" = false ->
  exists abi,
    value get_abi_tag env = Returns (Some abi)
    ∧ String.length abi = String.length soabi
    ∧ ("."%char ∉ chars abi) ∧ ("-"%char ∉ chars abi).
Proof.
  intros Hsoabi Hne Hstart.
  rewrite (value_get_abi_tag_soabi env soabi Hsoabi Hne), Hstart.
  eexists. split; [done|]. split; [by rewrite !replace_length|]. split.
  - apply replace_keeps_out; [done|]. by apply replace_removes.
  - by apply replace_removes.
Qed.

Lemma get_abi_tag_normalised_witness :
  exists abi,
    value get_abi_tag
      (Samples.linux "linux-x86_64" 9223372036854775807
         (Some (PStr "pypy3.6-pp73")) (Some 0x10ffff) None)
    = Returns (Some abi)
    ∧ String.length abi = String.length "pypy3.6-pp73"
    ∧ ("."%char ∉ chars abi) ∧ ("-"%char ∉ chars abi).
Proof.
  apply get_abi_tag_normalised; [reflexivity|discriminate|reflexivity].
Defined.

(** ** The macOS path *)

Lemma reprefix_macosx g :
  Py.startswith g "macosx_" = true ->
  "macosx" +:+ "_" +:+ Py.drop (String.length "macosx_") g = g.
Proof. intros [r ->]%startswith_inv. reflexivity. Qed.

(** [X14] For a platform string whose parsed prefix is macosx, when every
    platform the macOS generator yields starts with macosx_, the expansion
    is the generator's output as it comes; the version handed to the
    generator is the pair of numbers written in the string. *)
Theorem mac_platforms_verbatim env arch major minor actual_arch :
  Re.osx_arch_pat_match arch
    = Some ("macosx"%string, major, minor, actual_arch) ->
  (forall g,
     g ∈ mac_platforms env (decimal_value major, decimal_value minor)
           actual_arch ->
     Py.startswith g "macosx_" = true) ->
  value (_mac_platforms arch) env
  = Returns (mac_platforms env (decimal_value major, decimal_value minor)
               actual_arch).
Proof.
  intros Hmatch Hgenerated. unfold _mac_platforms. rewrite Hmatch.
  apply osx_arch_pat_match_digits in Hmatch
    as [[Hmajor_ne Hmajor] [Hminor_ne Hminor]].
  rewrite (int_digit_string major Hmajor_ne Hmajor).
  rewrite (int_digit_string minor Hminor_ne Hminor).
  cbn [of_option]. value_step. cbn [of_option]. value_step. f_equal.
  induction (mac_platforms env _ actual_arch) as [|g generated IH]; [done|].
  cbn [List.map]. rewrite reprefix_macosx by (apply Hgenerated; constructor).
  f_equal. apply IH. intros g' Hg'. apply Hgenerated. by constructor.
Qed.

Lemma mac_platforms_verbatim_witness :
  value (_mac_platforms "macosx_10_2_ppc") Samples.darwin_32bit
  = Returns (Samples.mac_baselines (10, 2) "ppc").
Proof.
  apply (mac_platforms_verbatim Samples.darwin_32bit "macosx_10_2_ppc"
           "10" "2" "ppc" eq_refl).
  intros g Hg.
  repeat (apply elem_of_cons in Hg as [->|Hg]; [reflexivity|]).
  by apply elem_of_nil in Hg.
Defined.

(** ** What the macOS pattern matches *)

Lemma span_spec p s run rest :
  Re.span p s = (run, rest) ->
  s = run +:+ rest
  ∧ forallb p (chars run) = true
  ∧ (rest = EmptyString ∨ exists c t, rest = String c t ∧ p c = false).
Proof.
  revert run rest. induction s as [|c s IH]; intros run rest; cbn [Re.span].
  - intros [= <- <-]. split; [done|]. split; [done|by left].
  - destruct (p c) eqn:Hc.
    + destruct (Re.span p s) as [run' rest']. intros [= <- <-].
      destruct (IH run' rest' eq_refl) as (-> & Hrun & Hrest).
      split; [done|]. split; [|done].
      rewrite chars_cons. cbn [forallb]. by rewrite Hc.
    + intros [= <- <-]. split; [done|]. split; [done|].
      right. by eexists _, _.
Qed.

Lemma span_app p run rest :
  forallb p (chars run) = true ->
  rest = EmptyString ∨ (exists c t, rest = String c t ∧ p c = false) ->
  Re.span p (run +:+ rest) = (run, rest).
Proof.
  intros Hrun Hrest. induction run as [|c run IH].
  - destruct Hrest as [->|(c & t & -> & Hc)]; [done|].
    change ("" +:+ String c t) with (String c t). cbn [Re.span].
    by rewrite Hc.
  - rewrite chars_cons in Hrun. cbn [forallb] in Hrun.
    apply andb_prop in Hrun as [Hc Hrun].
    rewrite append_cons. cbn [Re.span]. by rewrite Hc, (IH Hrun).
Qed.

Lemma no_newline_forallb s :
  forallb (fun c => negb (Re.is_newline c)) (chars s) = true
  <-> "010"%char ∉ chars s.
Proof.
  induction s as [|c s IH]; [split; [intros _; apply not_elem_of_nil|done]|].
  rewrite chars_cons, not_elem_of_cons. cbn [forallb].
  rewrite andb_true_iff, IH, negb_true_iff. unfold Re.is_newline.
  destruct (Ascii.eqb_spec c "010"); split; intros [? ?]; split;
    congruence.
Qed.

Lemma osx_tail_sound s major minor arch :
  Re.osx_tail s = Some (major, minor, arch) ->
  exists tail,
    s = "_" +:+ major +:+ "_" +:+ minor +:+ "_" +:+ arch +:+ tail
    ∧ arch ≠ EmptyString ∧ ("010"%char ∉ chars arch)
    ∧ (tail = EmptyString ∨ exists t, tail = String "010" t).
Proof.
  unfold Re.osx_tail. destruct s as [|c s1]; [done|].
  destruct (decide (c = "_"%char)) as [->|Hc].
  2:{ by destruct c as [[] [] [] [] [] [] [] []]. }
  destruct (Re.span Py.is_digit s1) as [[|m major'] rest1] eqn:Hmajor;
    [done|].
  destruct rest1 as [|c1 s2]; [done|].
  destruct (decide (c1 = "_"%char)) as [->|Hc1].
  2:{ by destruct c1 as [[] [] [] [] [] [] [] []]. }
  destruct (Re.span Py.is_digit s2) as [[|n minor'] rest2] eqn:Hminor;
    [done|].
  destruct rest2 as [|c2 s3]; [done|].
  destruct (decide (c2 = "_"%char)) as [->|Hc2].
  2:{ by destruct c2 as [[] [] [] [] [] [] [] []]. }
  destruct (Re.span _ s3) as [[|a arch'] rest3] eqn:Harch; [done|].
  intros [= <- <- <-].
  apply span_spec in Hmajor as (-> & _ & _).
  apply span_spec in Hminor as (-> & _ & _).
  apply span_spec in Harch as (-> & Hclean & Htail).
  exists rest3. split; [reflexivity|]. split; [done|].
  split; [by apply no_newline_forallb|].
  destruct Htail as [->|(c & t & -> & Hc)]; [by left|].
  right. exists t. f_equal. apply negb_false_iff in Hc.
  by apply Ascii.eqb_eq in Hc.
Qed.

(** [X15] When the macOS pattern matches a platform string, the string is
    name, major, minor and architecture joined by underscores, followed at
    most by text after a newline: the name and the architecture are not
    empty and hold no newline, major and minor are non-empty runs of
    digits. *)
Theorem osx_arch_pat_match_sound s name major minor arch :
  Re.osx_arch_pat_match s = Some (name, major, minor, arch) ->
  exists tail,
    s = name +:+ "_" +:+ major +:+ "_" +:+ minor +:+ "_" +:+ arch +:+ tail
    ∧ name ≠ EmptyString ∧ ("010"%char ∉ chars name)
    ∧ major ≠ EmptyString ∧ all_digits major = true
    ∧ minor ≠ EmptyString ∧ all_digits minor = true
    ∧ arch ≠ EmptyString ∧ ("010"%char ∉ chars arch)
    ∧ (tail = EmptyString ∨ exists t, tail = String "010" t).
Proof.
  intros Hmatch.
  pose proof (osx_arch_pat_match_digits _ _ _ _ _ Hmatch)
    as [[Hmajor_ne Hmajor] [Hminor_ne Hminor]].
  revert name Hmatch. induction s as [|c s IH]; intros name; [done|].
  cbn [Re.osx_arch_pat_match].
  destruct (Re.is_newline c) eqn:Hc; [done|].
  assert (Hnot : c ≠ "010"%char).
  { intros ->. done. }
  destruct (Re.osx_arch_pat_match s) as [[[[name' major'] minor'] arch']|].
  - intros [= <- <- <- <-].
    destruct (IH name' eq_refl)
      as (tail & -> & Hname & Hclean & _ & _ & _ & _ & Harch & Hline & Htail).
    exists tail. split; [reflexivity|]. split; [done|].
    split; [rewrite chars_cons; by apply not_elem_of_cons|]. done.
  - destruct (Re.osx_tail s) as [[[major' minor'] arch']|] eqn:Htail;
      [|done].
    intros [= <- <- <- <-].
    apply osx_tail_sound in Htail as (tail & -> & Harch & Hline & Htail).
    exists tail. split; [reflexivity|]. split; [done|].
    split; [|done]. rewrite chars_cons. apply not_elem_of_cons.
    split; [congruence|apply not_elem_of_nil].
Qed.

Lemma osx_arch_pat_match_sound_witness :
  exists tail,
    "macosx_10_9_x86_64"%string
    = "macosx" +:+ "_" +:+ "10" +:+ "_" +:+ "9" +:+ "_" +:+ "x86_64" +:+ tail
    ∧ (tail = EmptyString ∨ exists t, tail = String "010" t).
Proof.
  destruct (osx_arch_pat_match_sound "macosx_10_9_x86_64" "macosx" "10" "9"
              "x86_64" eq_refl)
    as (tail & Heq & _ & _ & _ & _ & _ & _ & _ & _ & Htail).
  by exists tail.
Defined.

Lemma osx_tail_complete major minor arch tail :
  major ≠ EmptyString -> all_digits major = true ->
  minor ≠ EmptyString -> all_digits minor = true ->
  arch ≠ EmptyString -> "010"%char ∉ chars arch ->
  tail = EmptyString ∨ (exists t, tail = String "010" t) ->
  Re.osx_tail ("_" +:+ major +:+ "_" +:+ minor +:+ "_" +:+ arch +:+ tail)
  = Some (major, minor, arch).
Proof.
  intros Hmajor_ne Hmajor Hminor_ne Hminor Harch_ne Harch Htail.
  change ("_" +:+ major +:+ "_" +:+ minor +:+ "_" +:+ arch +:+ tail)
    with (String "_" (major +:+ String "_"
                        (minor +:+ String "_" (arch +:+ tail)))).
  unfold Re.osx_tail.
  rewrite (span_app Py.is_digit major) by (done || right; by eexists _, _).
  rewrite (span_app Py.is_digit minor) by (done || right; by eexists _, _).
  rewrite (span_app _ arch).
  - by destruct major, minor, arch.
  - by apply no_newline_forallb.
  - destruct Htail as [->|[t ->]]; [by left|]. right. by eexists _, _.
Qed.

Lemma osx_arch_pat_match_of_tail name rest :
  name ≠ EmptyString -> "010"%char ∉ chars name ->
  is_Some (Re.osx_tail rest) ->
  is_Some (Re.osx_arch_pat_match (name +:+ rest)).
Proof.
  intros Hname Hclean Htail. induction name as [|c name IH]; [done|].
  rewrite chars_cons in Hclean. apply not_elem_of_cons in Hclean as [Hc Hclean].
  rewrite append_cons. cbn [Re.osx_arch_pat_match].
  assert (Hline : Re.is_newline c = false).
  { unfold Re.is_newline. by destruct (Ascii.eqb_spec c "010"). }
  rewrite Hline.
  destruct name as [|d name].
  - change ("" +:+ rest) with rest.
    destruct (Re.osx_arch_pat_match rest) as [[[[? ?] ?] ?]|]; [done|].
    by destruct Htail as [[[? ?] ?] ->].
  - destruct (IH ltac:(done) Hclean) as [[[[? ?] ?] ?] ->]. done.
Qed.

(** [X16] Every string of the form name_major_minor_arch is matched by
    the macOS pattern, when name and arch are non-empty without a newline
    and major and minor are non-empty runs of digits; such a platform is
    handed to the macOS generator and not returned as a singleton. *)
Theorem osx_arch_pat_match_complete name major minor arch :
  name ≠ EmptyString -> "010"%char ∉ chars name ->
  major ≠ EmptyString -> all_digits major = true ->
  minor ≠ EmptyString -> all_digits minor = true ->
  arch ≠ EmptyString -> "010"%char ∉ chars arch ->
  is_Some
    (Re.osx_arch_pat_match
       (name +:+ "_" +:+ major +:+ "_" +:+ minor +:+ "_" +:+ arch)).
Proof.
  intros Hname Hclean Hmajor_ne Hmajor Hminor_ne Hminor Harch_ne Harch.
  apply osx_arch_pat_match_of_tail; [done..|].
  rewrite <- (append_nil_r arch).
  rewrite (osx_tail_complete major minor arch "") by (done || by left).
  done.
Qed.

Lemma osx_arch_pat_match_complete_witness :
  is_Some (Re.osx_arch_pat_match "macosx_11_0_arm64").
Proof.
  apply (osx_arch_pat_match_complete "macosx" "11" "0" "arm64");
    try done; not_in_list.
Defined.

(** ** An explicit ABI is taken as given *)

Lemma never_emits_ret {A} P (a : A) : never_emits P (ret a).
Proof. intros env. constructor. Qed.

Lemma never_emits_raise {A} P e : never_emits P (@raise A e).
Proof. intros env. constructor. Qed.

Lemma never_emits_ask {A} P (f : Env -> A) : never_emits P (ask f).
Proof. intros env. constructor. Qed.

Lemma never_emits_lift {A} P (o : outcome A) : never_emits P (lift o).
Proof. intros env. constructor. Qed.

Lemma never_emits_emit P ev : P ev = false -> never_emits P (emit ev).
Proof. intros Hev env. by repeat constructor. Qed.

Lemma never_emits_bind {A B} P (m : M A) (k : A -> M B) :
  never_emits P m -> (forall a, never_emits P (k a)) ->
  never_emits P (bind m k).
Proof.
  intros Hm Hk env. rewrite trace_bind. apply Forall_app. split; [apply Hm|].
  destruct (value m env); [apply Hk|constructor].
Qed.

Ltac never_emits_step :=
  first
    [ apply never_emits_ret
    | apply never_emits_raise
    | apply never_emits_ask
    | apply never_emits_lift
    | apply never_emits_emit; reflexivity
    | apply never_emits_bind; [|intros ?]
    | match goal with
      | |- never_emits _ (match ?x with _ => _ end) => destruct x
      end ].

Lemma no_config_get_platform : never_emits is_config_query get_platform.
Proof. unfold get_platform, _is_running_32bit. repeat never_emits_step. Qed.

Lemma no_config_is_linux_armhf : never_emits is_config_query is_linux_armhf.
Proof.
  unfold is_linux_armhf.
  repeat first [apply no_config_get_platform | never_emits_step].
Qed.

Lemma no_config_get_custom_platforms arch platform :
  never_emits is_config_query (_get_custom_platforms arch platform).
Proof.
  unfold _get_custom_platforms, _mac_platforms, is_manylinux2014_compatible,
    is_manylinux2010_compatible, is_manylinux1_compatible, manylinux_marker,
    glibc_check.
  repeat first [ apply no_config_get_platform
               | apply no_config_is_linux_armhf
               | never_emits_step ].
Qed.

Lemma no_config_generic_tags version platform impl c abi :
  never_emits is_config_query
    (_generic_tags version platform impl (Some (String c abi))).
Proof.
  unfold _generic_tags, get_impl_version_info, py_or. cbn [Py.truthy].
  repeat first [ apply no_config_get_custom_platforms
               | apply no_config_get_platform
               | never_emits_step ].
Qed.

(** [X17] With a non-empty ABI given, get_supported never looks up a
    build-configuration variable and logs no warning about one: the ABI of
    the running interpreter is not resolved at all. *)
Theorem explicit_abi_skips_resolution `{Countable Tag} (lib : TagLib Tag)
  env version platform impl c abi :
  Forall (fun ev => is_config_query ev = false)
    (trace (get_supported lib version platform impl (Some (String c abi)))
       env).
Proof.
  revert env.
  change (never_emits is_config_query
            (get_supported lib version platform impl (Some (String c abi)))).
  unfold get_supported, get_supported_tags, _get_custom_interpreter, py_or.
  repeat first [ apply no_config_get_custom_platforms
               | apply no_config_generic_tags
               | never_emits_step ].
Qed.

(** ** The interpreter of the generic tags *)

Lemma all_minor_versions_head (major : list nat) (minor : nat) :
  exists older,
    get_all_minor_versions_as_strings (major ++ [minor])
    = Returns (Py.join (List.map Py.str (major ++ [minor])) :: older).
Proof.
  unfold get_all_minor_versions_as_strings.
  rewrite last_snoc, List.removelast_last. destruct minor; by eexists.
Qed.

(** [X18] With no version given, the generic tags carry the version of
    the running interpreter: major and minor of sys.version_info written
    without a dot, and on PyPy the Python major version followed by the
    major and minor version of PyPy. *)
Theorem generic_tags_current_version env platform c impl d abi arch arches :
  value (py_or platform get_platform) env = Returns arch ->
  value (_get_custom_platforms arch platform) env = Returns arches ->
  let current :=
    if bool_decide (interpreter_name env = "pp"%string)
    then Py.join (List.map Py.str [fst (sys_version_info env);
                                   fst (sys_pypy_version_info env);
                                   snd (sys_pypy_version_info env)])
    else version_info_to_nodot [fst (sys_version_info env);
                                snd (sys_version_info env)] in
  value (_generic_tags None platform (Some (String c impl))
           (Some (String d abi))) env
  = Returns
      (abi ← [String d abi; "none"%string];
       arch ← arches; [(String c impl +:+ current, abi, arch)]).
Proof.
  intros Harch Harches current.
  assert (Hversions : exists older,
    value (let! version_info := get_impl_version_info in
           lift (get_all_minor_versions_as_strings version_info)) env
    = Returns (current :: older)).
  { unfold get_impl_version_info. value_step. subst current.
    case_bool_decide; value_step.
    - apply (all_minor_versions_head
               [fst (sys_version_info env); fst (sys_pypy_version_info env)]
               (snd (sys_pypy_version_info env))).
    - apply (all_minor_versions_head
               [fst (sys_version_info env)] (snd (sys_version_info env))). }
  destruct Hversions as [older Hversions].
  unfold _generic_tags. rewrite value_bind, Hversions. value_step.
  cbn [py_or Py.truthy]. value_step.
  rewrite Harch. value_step. rewrite Harches. by value_step.
Qed.

Lemma generic_tags_current_version_witness :
  value (_generic_tags None (Some "win32"%string) (Some "ip"%string)
           (Some "abi3"%string)) Samples.linux_cp38
  = Returns [("ip38", "abi3", "win32"); ("ip38", "none", "win32")]%string.
Proof.
  apply (generic_tags_current_version Samples.linux_cp38
           (Some "win32"%string) "i" "p" "a" "bi3" "win32"%string
           ["win32"%string]); reflexivity.
Defined.

(** [X19] For a given version and an implementation that is not the
    empty string, every generic tag carries the interpreter that
    get_supported hands to the compatible-tag generator. *)
Theorem generic_tags_interpreter env version platform impl abi generic
  interpreter :
  impl ≠ Some EmptyString ->
  value (_generic_tags (Some version) platform impl abi) env
    = Returns generic ->
  value (_get_custom_interpreter impl (Some version)) env
    = Returns interpreter ->
  forall tag, tag ∈ generic -> tag.1.1 = interpreter.
Proof.
  intros Himpl Hgeneric Hinterpreter.
  assert (Hname : value (py_or impl (ask interpreter_name)) env
                  = Returns (match impl with
                             | Some i => i
                             | None => interpreter_name env
                             end)).
  { by destruct impl as [[|c i]|]. }
  unfold _get_custom_interpreter in Hinterpreter.
  revert Hinterpreter. value_step.
  assert (Himplementation :
    value match impl with
          | Some i => ret i
          | None => ask interpreter_name
          end env
    = Returns (match impl with
               | Some i => i
               | None => interpreter_name env
               end)) by (by destruct impl).
  rewrite Himplementation. value_step. intros [= <-].
  unfold _generic_tags in Hgeneric. revert Hgeneric. value_step.
  rewrite Hname. value_step.
  destruct (value (if Py.truthy abi then ret abi else get_abi_tag) env)
    as [resolved|e]; [|done].
  value_step.
  destruct (value (py_or platform get_platform) env) as [arch|e]; [|done].
  value_step.
  destruct (value (_get_custom_platforms arch platform) env)
    as [arches|e]; [|done].
  value_step. intros [= <-] tag Htag.
  apply list_elem_of_bind in Htag as (a & Htag & _).
  apply list_elem_of_bind in Htag as (p & Htag & _).
  by apply list_elem_of_singleton in Htag as ->.
Qed.

Lemma generic_tags_interpreter_witness :
  (("ip38", "none", "win32")%string : string * string * string).1.1
  = "ip38"%string.
Proof.
  apply (generic_tags_interpreter Samples.linux_cp38 "38"
           (Some "win32"%string) (Some "ip"%string) (Some "abi3"%string)
           [("ip38", "abi3", "win32"); ("ip38", "none", "win32")]%string).
  - discriminate.
  - reflexivity.
  - reflexivity.
  - right. left.
Defined.
